(** * UPS address mapping and validation for party addresses

    A shallow embedding of [party.py] (the [party.address] extension of the
    UPS shipping module) with the properties of its field mappers, its
    required-field checks and its reconciliation of carrier suggestions. *)

From Stdlib Require Import String Ascii List ZArith Bool.
From stdpp Require Import base list gmap strings.

Local Open Scope string_scope.
Local Open Scope Z_scope.

(** ** Python values and exceptions *)

(** A value stored in a payload dictionary: [None] or a string. *)
Inductive pyval : Type :=
| PyNone
| PyStr (s : string).

(** The exceptions the module can leave through.  [UserError] is what
    [raise_user_error] raises; [AttributeError] and [TypeError] come from
    dereferencing, slicing or matching on [None]. *)
Inductive exn : Type :=
| UserError (msg : string)
| AttributeError
| TypeError.

Inductive result (A : Type) : Type :=
| Ok (a : A)
| Raise (e : exn).
Arguments Ok {A} a.
Arguments Raise {A} e.

(** Sequencing: an exception ends the computation.  With the instance,
    [x ← m; k] runs [m] and continues with [k] when [m] returned. *)
#[global] Instance result_bind : MBind result := fun A B k m =>
  match m with
  | Ok a => k a
  | Raise e => Raise e
  end.

Definition succeeds {A : Type} (m : result A) : bool :=
  match m with Ok _ => true | Raise _ => false end.

(** ** Strings as Python uses them here *)

Definition dquote : ascii := ascii_of_nat 34.

(** [quoted s] is [s] between two double-quote characters. *)
Definition quoted (s : string) : string :=
  String dquote (s +:+ String dquote EmptyString).

(** [s[:n]] *)
Fixpoint slice_to (n : nat) (s : string) : string :=
  match n, s with
  | S n', String c s' => String c (slice_to n' s')
  | _, _ => EmptyString
  end.

(** [s[n:]] *)
Fixpoint slice_from (n : nat) (s : string) : string :=
  match n, s with
  | S n', String _ s' => slice_from n' s'
  | _, _ => s
  end.

Definition is_digit (c : ascii) : bool :=
  let n := nat_of_ascii c in (48 <=? n)%nat && (n <=? 57)%nat.

(** [digits_only_re.sub('', s)] with [digits_only_re = re.compile('\D+')]:
    every run of non-digit characters is replaced by nothing. *)
Fixpoint digits_only_re_sub (s : string) : string :=
  match s with
  | EmptyString => EmptyString
  | String c s' =>
      if is_digit c then String c (digits_only_re_sub s')
      else digits_only_re_sub s'
  end.

(** Upper case of an ASCII character: [a]..[z] become [A]..[Z], every
    other character is kept. *)
Definition upper_char (c : ascii) : ascii :=
  let n := nat_of_ascii c in
  if (97 <=? n)%nat && (n <=? 122)%nat then ascii_of_nat (n - 32) else c.

(** [s.upper()] on a text string: every character is replaced by its
    upper case in the case table of the Python runtime (for text strings
    the table of the Unicode database, which also folds letters outside
    [a]..[z]).  The table is not part of this module: [toupper] stands for
    it.  [upper_char] above is its part for the ASCII characters. *)
Fixpoint upper (toupper : ascii -> ascii) (s : string) : string :=
  match s with
  | EmptyString => EmptyString
  | String c s' => String (toupper c) (upper toupper s')
  end.

(** Truth value of an optional string field: [None] and [''] are false. *)
Definition truthy (o : option string) : bool :=
  match o with
  | Some (String _ _) => true
  | _ => false
  end.

(** [a or b] on optional strings. *)
Definition py_or (a b : option string) : option string :=
  if truthy a then a else b.

(** [a or ''] *)
Definition or_empty (a : option string) : string :=
  match a with
  | Some (String c s) => String c s
  | _ => EmptyString
  end.

Definition to_pyval (o : option string) : pyval :=
  match o with
  | Some s => PyStr s
  | None => PyNone
  end.

(** ** The records of the host store *)

Record Country : Type := { country_code : string }.

(** A [country.subdivision] record: its database id and its composite code
    ([COUNTRY-REGION]). *)
Record Subdivision : Type := { sub_id : Z; sub_code : string }.

Record Identifier : Type := { identifier_code : string }.

(** A [party.party] record.  [tax_exemption_number] is [None] when the
    party type does not expose the attribute ([hasattr] is false) and
    [Some v] when it does, [v] being the attribute's value. *)
Record Party : Type := {
  party_name : option string;
  phone : option string;
  fax : option string;
  email : option string;
  identifiers : list Identifier;
  tax_exemption_number : option (option string)
}.

(** A [party.address] instance.  [party] is [None] on an instance built
    without one (the candidates of the validation). *)
Record Address : Type := {
  name : option string;
  street : option string;
  streetbis : option string;
  city : option string;
  zip : option string;
  country : option Country;
  subdivision : option Subdivision;
  party : option Party
}.

Record Carrier : Type := { ups_shipper_no : option string }.

(** What the functions read besides the address: the [company] entry of
    the transaction context, the party of each company of the store, and
    the subdivision table. *)
Record Env : Type := {
  context_company : option Z;
  company_party : Z -> Party;
  subdivision_table : list Subdivision
}.

(** ** Errors raised to the user *)

(** The message registered under ['ups_field_missing'],
    ['%s is missing in %s.'], filled with its two arguments. *)
Definition ups_field_missing (what place : string) : string :=
  what +:+ " is missing in " +:+ place +:+ ".".

Definition raise_user_error {A : Type} (msg : string) : result A :=
  Raise (UserError msg).

(** [if cond: self.raise_user_error(msg)] *)
Definition raise_if (cond : bool) (msg : string) : result unit :=
  if cond then raise_user_error msg else Ok tt.

(** Reading an attribute of a record that may be [None]. *)
Definition getattr {A B : Type} (o : option A) (f : A -> B) : result B :=
  match o with
  | Some a => Ok (f a)
  | None => Raise AttributeError
  end.

(** Slicing a string field that may be [None]. *)
Definition getslice (o : option string) (f : string -> string) : result string :=
  match o with
  | Some s => Ok (f s)
  | None => Raise TypeError
  end.

(** [digits_only_re.sub('', v)] on a field that may be [None]. *)
Definition re_sub (o : option string) : result string :=
  match o with
  | Some s => Ok (digits_only_re_sub s)
  | None => Raise TypeError
  end.

(** Truth value of a record reference: only [None] is false. *)
Definition present {A : Type} (o : option A) : bool :=
  match o with
  | Some _ => true
  | None => false
  end.

(** [not l] on a list. *)
Definition is_nil {A : Type} (l : list A) : bool :=
  match l with
  | [] => true
  | _ :: _ => false
  end.

(** [x in l] on strings. *)
Definition str_in (x : string) (l : list string) : bool :=
  existsb (String.eqb x) l.

(** ** The REST-style address payload *)

(** [if v: vals[k] = f(v)] *)
Definition insert_if_truthy (k : string) (o : option string)
    (f : string -> string) (vals : gmap string pyval) : gmap string pyval :=
  match o with
  | Some (String c s) => <[k := PyStr (f (String c s))]> vals
  | _ => vals
  end.

(** [Address._get_ups_address_xml]; the result is the keyword dictionary
    handed to [ShipmentConfirm.address_type]. *)
Definition _get_ups_address_xml (self : Address) : result (gmap string pyval) :=
  _ ← raise_if
        (negb (forallb id [truthy (street self); truthy (city self);
                           present (country self)]))
        "Street, City and Country are required.";
  code ← getattr (country self) country_code;
  _ ← raise_if (str_in code ["US"; "CA"] && negb (present (subdivision self)))
        ("State is required for " +:+ code);
  _ ← raise_if (str_in code ["US"; "CA"; "PR"] && negb (truthy (zip self)))
        ("ZIP is required for " +:+ code);
  line1 ← getslice (street self) (slice_to 35);
  town ← getslice (city self) (slice_to 30);
  let vals : gmap string pyval :=
    {[ "AddressLine1" := PyStr line1;
       "City" := PyStr town;
       "CountryCode" := PyStr code ]} in
  let vals := insert_if_truthy "AddressLine2" (streetbis self) (slice_to 35) vals in
  let vals :=
    match subdivision self with
    | Some sd => <["StateProvinceCode" := PyStr (slice_from 3 (sub_code sd))]> vals
    | None => vals
    end in
  let vals := insert_if_truthy "PostalCode" (zip self) id vals in
  Ok vals.

(** ** The REST-style role payloads *)

(** The three role elements of [ShipmentConfirm]: each takes the address
    element and the role's keyword dictionary. *)
Inductive Payload : Type :=
| ship_from_type (address : gmap string pyval) (vals : gmap string pyval)
| ship_to_type (address : gmap string pyval) (vals : gmap string pyval)
| shipper_type (address : gmap string pyval) (vals : gmap string pyval).

Definition payload_address (p : Payload) : gmap string pyval :=
  match p with
  | ship_from_type a _ | ship_to_type a _ | shipper_type a _ => a
  end.

Definition payload_vals (p : Payload) : gmap string pyval :=
  match p with
  | ship_from_type _ v | ship_to_type _ v | shipper_type _ v => v
  end.

(** [Transaction().context.get('company')] followed by the
    [if not company_id] guard. *)
Definition company_from_context (env : Env) : result Z :=
  match context_company env with
  | Some company_id =>
      if company_id =? 0 then
        raise_user_error (ups_field_missing "Company" "context")
      else Ok company_id
  | None => raise_user_error (ups_field_missing "Company" "context")
  end.

(** [ids and ids[0].code or ''] *)
Definition first_code_or_empty (ids : list Identifier) : string :=
  match ids with
  | i :: _ => or_empty (Some (identifier_code i))
  | [] => EmptyString
  end.

(** [Address.to_ups_from_address] *)
Definition to_ups_from_address (env : Env) (self : Address) : result Payload :=
  party_phone ← getattr (party self) phone;
  _ ← raise_if (negb (truthy party_phone))
        (ups_field_missing "Phone no." (quoted "from address"));
  company_id ← company_from_context env;
  let company_party := company_party env company_id in
  attention ← (if truthy (name self) then Ok (name self)
               else getattr (party self) party_name);
  number ← re_sub party_phone;
  let vals : gmap string pyval :=
    {[ "CompanyName" := to_pyval (party_name company_party);
       "AttentionName" := to_pyval attention;
       "TaxIdentificationNumber" :=
         PyStr (first_code_or_empty (identifiers company_party));
       "PhoneNumber" := PyStr number ]} in
  party_fax ← getattr (party self) fax;
  let vals := insert_if_truthy "FaxNumber" party_fax id vals in
  party_email ← getattr (party self) email;
  let vals := insert_if_truthy "EMailAddress" party_email id vals in
  address ← _get_ups_address_xml self;
  Ok (ship_from_type address vals).

(** The tax identification number of [to_ups_to_address]. *)
Definition tax_identification_number (p : Party) : pyval :=
  match identifiers p with
  | i :: _ => PyStr (identifier_code i)
  | [] =>
      match tax_exemption_number p with
      | Some v => if truthy v then to_pyval v else PyStr EmptyString
      | None => PyStr EmptyString
      end
  end.

(** [Address.to_ups_to_address] *)
Definition to_ups_to_address (self : Address) : result Payload :=
  p ← getattr (party self) id;
  let attention := py_or (name self) (party_name p) in
  let vals : gmap string pyval :=
    {[ "CompanyName" := to_pyval attention;
       "TaxIdentificationNumber" := tax_identification_number p;
       "AttentionName" := to_pyval attention ]} in
  let vals := insert_if_truthy "PhoneNumber" (phone p) digits_only_re_sub vals in
  let vals := insert_if_truthy "FaxNumber" (fax p) id vals in
  let vals := insert_if_truthy "EMailAddress" (email p) id vals in
  address ← _get_ups_address_xml self;
  Ok (ship_to_type address vals).

#[global] Instance pyval_eq_dec : EqDecision pyval.
Proof. solve_decision. Defined.

(** What an element builder of the UPS library accepts: it wraps every
    keyword value in an XML element, and a value that is [None] makes it
    raise [TypeError]. *)
Definition buildable (vals : gmap string pyval) : bool :=
  bool_decide (map_Forall (fun _ v => v <> PyNone) vals).

(** [Address.to_ups_shipper]; [ShipmentConfirm.shipper_type] is called
    last, with the address element and the dictionary. *)
Definition to_ups_shipper (env : Env) (self : Address) (carrier : Carrier)
    : result Payload :=
  party_phone ← getattr (party self) phone;
  _ ← raise_if (negb (truthy party_phone))
        (ups_field_missing "Phone no." (quoted "Shipper Address"));
  company_id ← company_from_context env;
  let company_party := company_party env company_id in
  attention ← (if truthy (name self) then Ok (name self)
               else getattr (party self) party_name);
  number ← re_sub party_phone;
  let vals : gmap string pyval :=
    {[ "CompanyName" := to_pyval (party_name company_party);
       "TaxIdentificationNumber" :=
         PyStr (first_code_or_empty (identifiers company_party));
       "Name" := to_pyval attention;
       "AttentionName" := to_pyval attention;
       "PhoneNumber" := PyStr number;
       "ShipperNumber" := to_pyval (ups_shipper_no carrier) ]} in
  party_fax ← getattr (party self) fax;
  let vals := insert_if_truthy "FaxNumber" party_fax id vals in
  party_email ← getattr (party self) email;
  let vals := insert_if_truthy "EMailAddress" party_email id vals in
  address ← _get_ups_address_xml self;
  if buildable vals then Ok (shipper_type address vals) else Raise TypeError.

(** ** The desktop (WorldShip) payload *)

(** [Address.to_worldship_address] *)
Definition to_worldship_address (env : Env) (self : Address)
    : result (gmap string pyval) :=
  company_id ← company_from_context env;
  let company_party := company_party env company_id in
  attention ← (if truthy (name self) then Ok (name self)
               else getattr (party self) party_name);
  party_phone ← getattr (party self) phone;
  telephone ← re_sub party_phone;
  Ok ({[ "CompanyOrName" := to_pyval (party_name company_party);
         "Attention" := to_pyval attention;
         "Address1" := PyStr (or_empty (street self));
         "Address2" := PyStr (or_empty (streetbis self));
         "CountryTerritory" :=
           match country self with
           | Some c => PyStr (country_code c)
           | None => PyNone
           end;
         "PostalCode" := PyStr (or_empty (zip self));
         "CityOrTown" := PyStr (or_empty (city self));
         "StateProvinceCounty" :=
           match subdivision self with
           | Some sd => PyStr (slice_from 3 (sub_code sd))
           | None => PyNone
           end;
         "Telephone" := PyStr telephone ]} : gmap string pyval).

(** ** Reconciling the carrier's suggestions *)

(** One suggested address of the carrier's response. *)
Record Suggestion : Type := {
  suggestion_city : string;
  suggestion_state : string
}.

(** The carrier's response: [response['valid']] and
    [response['suggestions']]. *)
Record Response : Type := {
  valid : bool;
  suggestions : list Suggestion
}.

(** What [_ups_address_validate] returns: [True] ([Exact]) or the list
    [matches] ([Candidates]). *)
Inductive Verdict : Type :=
| Exact
| Candidates (matches : list Address).

(** [Subdivision.search([('code', '=', code)])] *)
Definition Subdivision_search (table : list Subdivision) (code : string)
    : list Subdivision :=
  List.filter (fun sd => String.eqb (sub_code sd) code) table.

(** ['%s-%s' % (self.country.code, address['state'])] *)
Definition subdivision_query (c : Country) (address : Suggestion) : string :=
  country_code c +:+ "-" +:+ suggestion_state address.

(** [self.subdivision == subdivision]: records of the store are equal
    when they have the same id; [None] equals no record. *)
Definition subdivision_eq (mine : option Subdivision) (found : Subdivision) : bool :=
  match mine with
  | Some sd => sub_id sd =? sub_id found
  | None => false
  end.

(** [Address(city=address['city'], subdivision=subdivision, **base_address)] *)
Definition candidate (self : Address) (address : Suggestion) (sd : Subdivision)
    : Address :=
  {| name := name self;
     street := street self;
     streetbis := streetbis self;
     country := country self;
     zip := zip self;
     city := Some (suggestion_city address);
     subdivision := Some sd;
     party := None |}.

(** A run of the validation: what it returned or raised, and the codes it
    searched the subdivision table for, in order. *)
Record Run : Type := {
  outcome : result Verdict;
  searched : list string
}.

(** The [for address in response['suggestions']] loop, from the state
    ([matches], [log]) it has reached. *)
Fixpoint iterate (toupper : ascii -> ascii) (table : list Subdivision)
    (self : Address)
    (todo : list Suggestion) (matches : list Address) (log : list string) : Run :=
  match todo with
  | [] => {| outcome := Ok (Candidates matches); searched := log |}
  | address :: rest =>
      match country self with
      | None => {| outcome := Raise AttributeError; searched := log |}
      | Some c =>
          let code := subdivision_query c address in
          let log := (log ++ [code])%list in
          match Subdivision_search table code with
          | [sd] =>
              match city self with
              | None => {| outcome := Raise AttributeError; searched := log |}
              | Some mine =>
                  if String.eqb (upper toupper mine) (upper toupper (suggestion_city address))
                     && subdivision_eq (subdivision self) sd
                  then {| outcome := Ok Exact; searched := log |}
                  else iterate toupper table self rest
                         (matches ++ [candidate self address sd])%list log
              end
          | _ => iterate toupper table self rest matches log
          end
      end
  end.

(** [Address._ups_address_validate], from the carrier's response on. *)
Definition _ups_address_validate (toupper : ascii -> ascii)
    (table : list Subdivision) (self : Address) (response : Response) : Run :=
  if valid response && is_nil (suggestions response) then
    {| outcome := Ok Exact; searched := [] |}
  else iterate toupper table self (suggestions response) [] [].

(** ** Notions used in the statements and their proofs *)

(** The check passes exactly when street, city and country are there and
    the country's own requirements are met. *)
Definition required_fields_ok (self : Address) : bool :=
  match country self with
  | Some k =>
      truthy (street self) && truthy (city self)
      && negb (str_in (country_code k) ["US"; "CA"]
               && negb (present (subdivision self)))
      && negb (str_in (country_code k) ["US"; "CA"; "PR"]
               && negb (truthy (zip self)))
  | None => false
  end.

(** The keyword dictionary of [to_ups_from_address]. *)
Definition from_vals (company : Party) (self : Address) (p : Party)
    (number : string) : gmap string pyval :=
  insert_if_truthy "EMailAddress" (email p) id
    (insert_if_truthy "FaxNumber" (fax p) id
       {[ "CompanyName" := to_pyval (party_name company);
          "AttentionName" := to_pyval (py_or (name self) (party_name p));
          "TaxIdentificationNumber" :=
            PyStr (first_code_or_empty (identifiers company));
          "PhoneNumber" := PyStr (digits_only_re_sub number) ]}).

(** The keyword dictionary of [to_ups_shipper]. *)
Definition shipper_vals (company : Party) (self : Address) (p : Party)
    (number : string) (carrier : Carrier) : gmap string pyval :=
  insert_if_truthy "EMailAddress" (email p) id
    (insert_if_truthy "FaxNumber" (fax p) id
       {[ "CompanyName" := to_pyval (party_name company);
          "TaxIdentificationNumber" :=
            PyStr (first_code_or_empty (identifiers company));
          "Name" := to_pyval (py_or (name self) (party_name p));
          "AttentionName" := to_pyval (py_or (name self) (party_name p));
          "PhoneNumber" := PyStr (digits_only_re_sub number);
          "ShipperNumber" := to_pyval (ups_shipper_no carrier) ]}).

(** The keyword dictionary of [to_ups_to_address]. *)
Definition to_vals (self : Address) (p : Party) : gmap string pyval :=
  insert_if_truthy "EMailAddress" (email p) id
    (insert_if_truthy "FaxNumber" (fax p) id
       (insert_if_truthy "PhoneNumber" (phone p) digits_only_re_sub
          {[ "CompanyName" := to_pyval (py_or (name self) (party_name p));
             "TaxIdentificationNumber" := tax_identification_number p;
             "AttentionName" := to_pyval (py_or (name self) (party_name p)) ]})).

(** The keys of the desktop payload. *)
Definition worldship_keys : gset string :=
  {[ "CompanyOrName"; "Attention"; "Address1"; "Address2";
     "CountryTerritory"; "PostalCode"; "CityOrTown";
     "StateProvinceCounty"; "Telephone" ]}.

(** The suggestion's (country code, state) pair resolves to exactly the
    record [sd]. *)
Definition resolves_to (table : list Subdivision) (self : Address)
    (address : Suggestion) (sd : Subdivision) : Prop :=
  exists c, country self = Some c /\
    Subdivision_search table
      (country_code c +:+ "-" +:+ suggestion_state address) = [sd].

(** The pair resolves to no record or to several. *)
Definition unresolvable (table : list Subdivision) (self : Address)
    (address : Suggestion) : Prop :=
  exists c, country self = Some c /\
    length (Subdivision_search table
              (country_code c +:+ "-" +:+ suggestion_state address)) <> 1%nat.

(** A resolvable suggestion that repeats the address: same city up to
    case, same subdivision. *)
Definition confirms (toupper : ascii -> ascii) (table : list Subdivision)
    (self : Address) (address : Suggestion) : Prop :=
  exists sd mine mine_sd,
    resolves_to table self address sd /\
    city self = Some mine /\
    upper toupper mine = upper toupper (suggestion_city address) /\
    subdivision self = Some mine_sd /\
    sub_id mine_sd = sub_id sd.

(** The codes searched for a list of suggestions. *)
Definition queries (self : Address) (l : list Suggestion) : list string :=
  match country self with
  | Some c => map (subdivision_query c) l
  | None => []
  end.

(** The candidate a suggestion gives, if it resolves. *)
Definition candidate_of (table : list Subdivision) (self : Address)
    (address : Suggestion) : option Address :=
  match country self with
  | Some c =>
      match Subdivision_search table (subdivision_query c address) with
      | [sd] => Some (candidate self address sd)
      | _ => None
      end
  | None => None
  end.

(** ** Sample data *)

(** A street of 40 characters and a city of 50. *)
Definition street40 : string := "1234 Long Winding Boulevard North, Apt 9".
Definition city50 : string := "Saint Bartholomew upon the Long Western Riverbanks".

(** A party without identifier, with a tax exemption number. *)
Definition acme : Party :=
  {| party_name := Some "Acme"; phone := Some "+1 (512) 555-0100";
     fax := None; email := None; identifiers := [];
     tax_exemption_number := Some (Some "EX-77") |}.

(** A context with a company; the table has one record for US-TX and
    US-CA, two for US-DD and none for US-ZZ. *)
Definition env1 : Env :=
  {| context_company := Some 1;
     company_party := fun _ => acme;
     subdivision_table :=
       [ {| sub_id := 7; sub_code := "US-TX" |};
         {| sub_id := 8; sub_code := "US-CA" |};
         {| sub_id := 9; sub_code := "US-DD" |};
         {| sub_id := 10; sub_code := "US-DD" |} ] |}.

Definition long_address : Address :=
  {| name := Some "Jo"; street := Some street40; streetbis := None;
     city := Some city50; zip := Some "73301";
     country := Some {| country_code := "US" |};
     subdivision := Some {| sub_id := 7; sub_code := "US-TX" |};
     party := Some acme |}.

(** A French address without postal code and subdivision, whose party
    has no fax number. *)
Definition lone_party : Party :=
  {| party_name := Some "Marie"; phone := Some "01 44 55 66 77";
     fax := None; email := None; identifiers := [];
     tax_exemption_number := Some (Some "EX-77") |}.

Definition bare_address : Address :=
  {| name := None; street := Some "12 rue Cler"; streetbis := None;
     city := Some "Paris"; zip := None;
     country := Some {| country_code := "FR" |};
     subdivision := None;
     party := Some lone_party |}.

(** An address whose party has no phone number. *)
Definition mute_party : Party :=
  {| party_name := Some "Marie"; phone := None;
     fax := None; email := None; identifiers := [];
     tax_exemption_number := None |}.

Definition mute_address : Address :=
  {| name := Some "Depot"; street := Some "1 Main St"; streetbis := None;
     city := Some "Austin"; zip := Some "73301";
     country := Some {| country_code := "US" |};
     subdivision := Some {| sub_id := 7; sub_code := "US-TX" |};
     party := Some mute_party |}.

Definition env_without_company : Env :=
  {| context_company := None;
     company_party := fun _ => acme;
     subdivision_table := [] |}.

(** The address of the reconciliation scenarios and four suggestions. *)
Definition austin_address : Address :=
  {| name := Some "Jo"; street := Some "1 Main St"; streetbis := None;
     city := Some "austin"; zip := Some "73301";
     country := Some {| country_code := "US" |};
     subdivision := Some {| sub_id := 7; sub_code := "US-TX" |};
     party := Some acme |}.

Definition houston_zz : Suggestion :=
  {| suggestion_city := "Houston"; suggestion_state := "ZZ" |}.
Definition austin_tx : Suggestion :=
  {| suggestion_city := "Austin"; suggestion_state := "TX" |}.
Definition dallas_tx : Suggestion :=
  {| suggestion_city := "Dallas"; suggestion_state := "TX" |}.
Definition dover_dd : Suggestion :=
  {| suggestion_city := "Dover"; suggestion_state := "DD" |}.

(** Addresses for the required-field check. *)
Definition us : Country := {| country_code := "US" |}.
Definition fr : Country := {| country_code := "FR" |}.

Definition blank_address : Address :=
  {| name := None; street := None; streetbis := None; city := None;
     zip := None; country := None; subdivision := None; party := None |}.

Definition us_without_state (z : option string) : Address :=
  {| name := None; street := Some "1 Main St"; streetbis := None;
     city := Some "Austin"; zip := z; country := Some us;
     subdivision := None; party := None |}.

Definition nowhere_address : Address :=
  {| name := Some "Jo"; street := Some "1 Main St"; streetbis := None;
     city := None; zip := Some "73301"; country := Some us;
     subdivision := Some {| sub_id := 7; sub_code := "US-TX" |};
     party := None |}.

Definition us_without_zip : Address :=
  {| name := None; street := Some "1 Main St"; streetbis := None;
     city := Some "Austin"; zip := None; country := Some us;
     subdivision := Some {| sub_id := 7; sub_code := "US-TX" |};
     party := None |}.

(** ** The request sent to the carrier *)

Definition dash : ascii := ascii_of_nat 45.

(** [s.split(sep)] for a separator of one character. *)
Fixpoint split (sep : ascii) (s : string) : list string :=
  match s with
  | EmptyString => [EmptyString]
  | String c s' =>
      if Ascii.eqb c sep then EmptyString :: split sep s'
      else
        match split sep s' with
        | w :: ws => String c w :: ws
        | [] => [String c EmptyString]
        end
  end.

(** [sep in s] *)
Fixpoint contains (sep : ascii) (s : string) : bool :=
  match s with
  | EmptyString => false
  | String c s' => Ascii.eqb c sep || contains sep s'
  end.

(** How a call of the validation entry point can end without a verdict:
    with one of the exceptions of [exn], with the [IndexError] of an index
    out of range, or with the [ValueError] of an unpacking of the wrong
    length. *)
Inductive failure : Type :=
| Raised (e : exn)
| IndexError
| ValueError.

Inductive attempt (A : Type) : Type :=
| Returned (a : A)
| Failed (f : failure).
Arguments Returned {A} a.
Arguments Failed {A} f.

Module fulfil_shipping.

(** The keyword arguments of [fulfil_shipping.Address]. *)
Record Address : Type := {
  name : option string;
  street1 : option string;
  city : option string;
  zip : option string;
  state : option string;
  country : option string
}.

End fulfil_shipping.

(** [Address.fulfil_shipping_obj] *)
Definition fulfil_shipping_obj (self : Address)
    : attempt fulfil_shipping.Address :=
  let state :=
    match subdivision self with
    | Some sd =>
        match split dash (sub_code sd) !! 1%nat with
        | Some region => Returned (Some region)
        | None => Failed IndexError
        end
    | None => Returned None
    end in
  match state with
  | Returned st =>
      Returned
        {| fulfil_shipping.name := name self;
           fulfil_shipping.street1 := street self;
           fulfil_shipping.city := city self;
           fulfil_shipping.zip := zip self;
           fulfil_shipping.state := st;
           fulfil_shipping.country :=
             match country self with
             | Some c => Some (country_code c)
             | None => None
             end |}
  | Failed f => Failed f
  end.

(** ** The validation entry point *)

(** What the validation reads of the carrier selected in the party
    configuration. *)
Record ValidationCarrier : Type := {
  ups_license_key : option string;
  ups_user_id : option string;
  ups_password : option string;
  ups_is_test : bool
}.

(** The keyword arguments of [UPSClient]. *)
Record UPSClient : Type := {
  license_number : option string;
  user_id : option string;
  password : option string;
  test_mode : bool
}.

(** What [client.validate] does: it returns a sequence of responses or
    raises [ShippingException]; the items of the exception's [message] are
    kept as the texts ['%s'] prints for them. *)
Inductive Reply : Type :=
| Responses (l : list Response)
| ShippingException (message : list string).

(** The whole of [Address._ups_address_validate]:
    [default_validation_carrier] is the field of the party configuration
    and [validate] the carrier's transport. *)
Definition _ups_address_validate_call (toupper : ascii -> ascii)
    (default_validation_carrier : option ValidationCarrier)
    (validate : UPSClient -> fulfil_shipping.Address -> Reply)
    (table : list Subdivision) (self : Address) : attempt Verdict :=
  match default_validation_carrier with
  | None =>
      Failed (Raised (UserError
        "Validation Carrier is not selected in party configuration."))
  | Some carrier =>
      let client :=
        {| license_number := ups_license_key carrier;
           user_id := ups_user_id carrier;
           password := ups_password carrier;
           test_mode := ups_is_test carrier |} in
      match fulfil_shipping_obj self with
      | Failed f => Failed f
      | Returned request =>
          match validate client request with
          | ShippingException message =>
              match message !! 1%nat with
              | Some text =>
                  Failed (Raised (UserError
                    ("Error while validating address: " +:+ text)))
              | None => Failed IndexError
              end
          | Responses [response] =>
              match outcome (_ups_address_validate toupper table self response) with
              | Ok verdict => Returned verdict
              | Raise e => Failed (Raised e)
              end
          | Responses _ => Failed ValueError
          end
      end
  end.

(** ** The desktop (WorldShip) elements *)

Module WorldShip.

(** The two elements the desktop payload is wrapped in. *)
Inductive element : Type :=
| ship_to_type (values : gmap string pyval)
| ship_from_type (values : gmap string pyval).

Definition values_of (e : element) : gmap string pyval :=
  match e with
  | ship_to_type v | ship_from_type v => v
  end.

End WorldShip.

(** [Address.to_worldship_to_address]; [WorldShip.ship_to_type] is called
    with the dictionary as it is after the assignment. *)
Definition to_worldship_to_address (env : Env) (self : Address)
    : result WorldShip.element :=
  values ← to_worldship_address env self;
  attention ← (if truthy (name self) then Ok (name self)
               else getattr (party self) party_name);
  let values := <["CompanyOrName" := to_pyval attention]> values in
  if buildable values then Ok (WorldShip.ship_to_type values)
  else Raise TypeError.

(** [Address.to_worldship_from_address] *)
Definition to_worldship_from_address (env : Env) (self : Address)
    : result WorldShip.element :=
  values ← to_worldship_address env self;
  if buildable values then Ok (WorldShip.ship_from_type values)
  else Raise TypeError.

(** ** Further notions and sample data *)

(** An address whose party has a phone without any digit, a fax number
    and an e-mail address. *)
Definition chatty_party : Party :=
  {| party_name := Some "Marie"; phone := Some "ask at the desk";
     fax := Some "+1 (512) 555-0199"; email := Some "marie@example.com";
     identifiers := [ {| identifier_code := "FR-123" |} ];
     tax_exemption_number := None |}.

Definition chatty_address : Address :=
  {| name := None; street := Some "1 Main St"; streetbis := Some "Suite 4";
     city := Some "Austin"; zip := Some "73301";
     country := Some {| country_code := "US" |};
     subdivision := Some {| sub_id := 7; sub_code := "US-TX" |};
     party := Some chatty_party |}.

(** The candidate [a] with the name, street lines, postal code and
    country of another address. *)
Definition rebase (other : Address) (a : Address) : Address :=
  {| name := name other; street := street other;
     streetbis := streetbis other; city := city a; zip := zip other;
     country := country other; subdivision := subdivision a;
     party := party a |}.

(** The run [r] with every candidate rebased. *)
Definition rebase_run (other : Address) (r : Run) : Run :=
  {| outcome :=
       match outcome r with
       | Ok (Candidates l) => Ok (Candidates (map (rebase other) l))
       | Ok Exact => Ok Exact
       | Raise e => Raise e
       end;
     searched := searched r |}.

(** [austin_address] under another name, street and postal code. *)
Definition other_street_address : Address :=
  {| name := Some "Sam"; street := Some "99 Elm Ave"; streetbis := Some "Rear";
     city := Some "austin"; zip := None;
     country := Some {| country_code := "US" |};
     subdivision := Some {| sub_id := 7; sub_code := "US-TX" |};
     party := None |}.

(** A transport that answers every request with the same reply. *)
Definition constant_transport (reply : Reply)
    : UPSClient -> fulfil_shipping.Address -> Reply :=
  fun _ _ => reply.

(** An address whose subdivision code has no dash. *)
Definition undashed_address : Address :=
  {| name := Some "Jo"; street := Some "1 Main St"; streetbis := None;
     city := Some "Austin"; zip := Some "73301";
     country := Some {| country_code := "US" |};
     subdivision := Some {| sub_id := 11; sub_code := "TEXAS" |};
     party := None |}.

Definition test_carrier : ValidationCarrier :=
  {| ups_license_key := Some "KEY"; ups_user_id := Some "user";
     ups_password := Some "secret"; ups_is_test := true |}.

(** ** Comparing up to letter case *)

(** [R] holds between the characters of [s] and [t], position by
    position, and the two strings have the same length. *)
Fixpoint pairwise (R : ascii -> ascii -> Prop) (s t : string) : Prop :=
  match s, t with
  | EmptyString, EmptyString => True
  | String c s', String d t' => R c d /\ pairwise R s' t'
  | _, _ => False
  end.

(** The same character, or the capital and the small form of one of the
    letters A to Z. *)
Definition same_letter (c d : ascii) : Prop :=
  c = d \/
  ((65 <= nat_of_ascii c <= 90)%nat /\ nat_of_ascii d = (nat_of_ascii c + 32)%nat) \/
  ((65 <= nat_of_ascii d <= 90)%nat /\ nat_of_ascii c = (nat_of_ascii d + 32)%nat).

(** Every character of [s] is an ASCII character. *)
Fixpoint ascii_text (s : string) : Prop :=
  match s with
  | EmptyString => True
  | String c s' => (nat_of_ascii c < 128)%nat /\ ascii_text s'
  end.

(** What every case table of the runtime does on the ASCII characters:
    the small letters a to z go to their capitals and nothing else
    moves. *)
Definition folds_ascii (toupper : ascii -> ascii) : Prop :=
  forall c, (nat_of_ascii c < 128)%nat ->
    ((97 <= nat_of_ascii c <= 122)%nat ->
     nat_of_ascii (toupper c) = (nat_of_ascii c - 32)%nat) /\
    (~ (97 <= nat_of_ascii c <= 122)%nat -> toupper c = c).

(** A case table that folds, besides a to z, the letters with code 224
    to 254 (but 247) to the character 32 places before: the accented
    letters when a character is its Latin-1 code point. *)
Definition latin1_upper_char (c : ascii) : ascii :=
  let n := nat_of_ascii c in
  if (224 <=? n)%nat && (n <=? 254)%nat && negb (n =? 247)%nat
  then ascii_of_nat (n - 32) else upper_char c.

(** "münchen" and "MÜNCHEN", one character per letter. *)
Definition muenchen : string :=
  String "m" (String (ascii_of_nat 252) "nchen").
Definition MUENCHEN : string :=
  String "M" (String (ascii_of_nat 220) "NCHEN").

Definition munich_address : Address :=
  {| name := Some "Jo"; street := Some "Marienplatz 1"; streetbis := None;
     city := Some muenchen; zip := Some "80331";
     country := Some {| country_code := "DE" |};
     subdivision := Some {| sub_id := 20; sub_code := "DE-BY" |};
     party := None |}.

(** * Properties *)

(** ** Strings *)

Lemma slice_to_length (n : nat) (s : string) :
  String.length (slice_to n s) = Nat.min n (String.length s).
Proof.
  revert s; induction n as [|n IH]; intros [|c s]; simpl; auto.
Qed.

Lemma slice_to_from (n : nat) (s : string) :
  slice_to n s +:+ slice_from n s = s.
Proof.
  revert s; induction n as [|n IH]; intros [|c s]; try reflexivity.
  change (String c (slice_to n s +:+ slice_from n s) = String c s).
  f_equal. apply IH.
Qed.

#[local] Arguments slice_to : simpl never.
#[local] Arguments slice_from : simpl never.
#[local] Arguments str_in : simpl never.
#[local] Arguments buildable : simpl never.

(** ** The required-field check *)

Ltac run_check :=
  unfold _get_ups_address_xml, raise_if, raise_user_error, getattr, getslice;
  simpl.

(** What a successful [_get_ups_address_xml] returns, key by key. *)
Lemma get_ups_address_xml_Ok (self : Address) (vals : gmap string pyval) :
  _get_ups_address_xml self = Ok vals ->
  exists s c k,
    street self = Some s /\ city self = Some c /\ country self = Some k /\
    vals !! "AddressLine1" = Some (PyStr (slice_to 35 s)) /\
    vals !! "City" = Some (PyStr (slice_to 30 c)) /\
    vals !! "CountryCode" = Some (PyStr (country_code k)) /\
    vals !! "AddressLine2" =
      (if truthy (streetbis self)
       then Some (PyStr (slice_to 35 (or_empty (streetbis self)))) else None) /\
    vals !! "StateProvinceCode" =
      (sd ← subdivision self; Some (PyStr (slice_from 3 (sub_code sd)))) /\
    vals !! "PostalCode" =
      (if truthy (zip self) then Some (PyStr (or_empty (zip self))) else None).
Proof.
  destruct self as [n st sb ci zp co sd pa]. run_check.
  destruct st as [[|? ?]|], ci as [[|? ?]|], co as [[code]|];
    simpl; try discriminate.
  destruct sb as [[|? ?]|], sd as [sd|], zp as [[|? ?]|]; simpl.
  all: destruct (str_in code ["US"; "CA"]), (str_in code ["US"; "CA"; "PR"]);
    simpl; try discriminate.
  all: intros [= <-]; do 3 eexists.
  all: repeat split; reflexivity.
Qed.

Lemma get_ups_address_xml_succeeds (self : Address) :
  succeeds (_get_ups_address_xml self) = required_fields_ok self.
Proof.
  destruct self as [n st sb ci zp co sd pa].
  unfold required_fields_ok. run_check.
  destruct st as [[|? ?]|]; simpl.
  all: destruct ci as [[|? ?]|]; simpl.
  all: destruct co as [[code]|]; simpl; try reflexivity.
  all: repeat match goal with
         | |- context [if ?b then _ else _] => destruct b
         end; simpl; try reflexivity.
  all: destruct (truthy zp); simpl in *; congruence.
Qed.

Lemma str_in_true (x : string) (l : list string) :
  str_in x l = true <-> In x l.
Proof.
  unfold str_in. rewrite existsb_exists. split.
  - intros [y [Hin Heq]]. apply String.eqb_eq in Heq. now subst.
  - intros Hin. exists x. split; [exact Hin | apply String.eqb_refl].
Qed.

Lemma str_in_false (x : string) (l : list string) :
  str_in x l = false <-> ~ In x l.
Proof.
  rewrite <- str_in_true. destruct (str_in x l); split; congruence.
Qed.

(** C4. The required-field check of [_get_ups_address_xml]: an empty
    street, city or country fails with "Street, City and Country are
    required." whatever the other fields hold; otherwise US or CA without a
    subdivision fails with the state error, whatever the ZIP is; otherwise
    US, CA or PR without a ZIP fails with the ZIP error; any other country
    passes with or without ZIP and subdivision. *)
Theorem required_field_check (self : Address) :
  (truthy (street self) = false \/ truthy (city self) = false
   \/ country self = None ->
   _get_ups_address_xml self =
     Raise (UserError "Street, City and Country are required."))
  /\
  (forall k, country self = Some k ->
     truthy (street self) = true -> truthy (city self) = true ->
     (In (country_code k) ["US"; "CA"] -> subdivision self = None ->
      _get_ups_address_xml self =
        Raise (UserError ("State is required for " +:+ country_code k)))
     /\
     (In (country_code k) ["US"; "CA"; "PR"] ->
      (In (country_code k) ["US"; "CA"] -> subdivision self <> None) ->
      truthy (zip self) = false ->
      _get_ups_address_xml self =
        Raise (UserError ("ZIP is required for " +:+ country_code k)))
     /\
     (~ In (country_code k) ["US"; "CA"; "PR"] ->
      succeeds (_get_ups_address_xml self) = true)).
Proof.
  split.
  - intros H. run_check.
    destruct (truthy (street self)) eqn:Hs; simpl; [|reflexivity].
    destruct (truthy (city self)) eqn:Hc; simpl; [|reflexivity].
    destruct (country self) eqn:Hk; simpl; [|reflexivity].
    destruct H as [H|[H|H]]; discriminate.
  - intros k Hk Hs Hc. repeat split.
    + intros Hin Hsd. apply str_in_true in Hin.
      run_check. rewrite Hs, Hc, Hk, Hsd. simpl. rewrite Hin. reflexivity.
    + intros Hin Hsd Hz.
      assert (Hstate : str_in (country_code k) ["US"; "CA"]
                       && negb (present (subdivision self)) = false).
      { destruct (str_in (country_code k) ["US"; "CA"]) eqn:E; [|reflexivity].
        apply str_in_true in E. specialize (Hsd E).
        destruct (subdivision self); [reflexivity | congruence]. }
      apply str_in_true in Hin.
      run_check. rewrite Hs, Hc, Hk. simpl. rewrite Hstate. simpl.
      rewrite Hin, Hz. reflexivity.
    + intros Hout. rewrite get_ups_address_xml_succeeds.
      unfold required_fields_ok. rewrite Hk, Hs, Hc.
      apply str_in_false in Hout.
      assert (Hus : str_in (country_code k) ["US"; "CA"] = false).
      { apply str_in_false. apply str_in_false in Hout.
        intros Hin. apply Hout. simpl in *. tauto. }
      rewrite Hout, Hus. reflexivity.
Qed.

(** ** The desktop payload, key by key *)

Lemma company_from_context_Ok (env : Env) (company_id : Z) :
  company_from_context env = Ok company_id ->
  context_company env = Some company_id /\ company_id <> 0.
Proof.
  unfold company_from_context.
  destruct (context_company env) as [z|]; [|discriminate].
  destruct (Z.eqb_spec z 0); [discriminate|].
  intros [= <-]. split; [reflexivity | assumption].
Qed.

Lemma to_worldship_address_Ok (env : Env) (self : Address)
    (vals : gmap string pyval) :
  to_worldship_address env self = Ok vals ->
  exists company_id p number,
    company_from_context env = Ok company_id /\
    party self = Some p /\ phone p = Some number /\
    vals =
      {[ "CompanyOrName" := to_pyval (party_name (company_party env company_id));
         "Attention" := to_pyval (py_or (name self) (party_name p));
         "Address1" := PyStr (or_empty (street self));
         "Address2" := PyStr (or_empty (streetbis self));
         "CountryTerritory" :=
           match country self with
           | Some c => PyStr (country_code c)
           | None => PyNone
           end;
         "PostalCode" := PyStr (or_empty (zip self));
         "CityOrTown" := PyStr (or_empty (city self));
         "StateProvinceCounty" :=
           match subdivision self with
           | Some sd => PyStr (slice_from 3 (sub_code sd))
           | None => PyNone
           end;
         "Telephone" := PyStr (digits_only_re_sub number) ]}.
Proof.
  unfold to_worldship_address.
  destruct (company_from_context env) as [company_id|e]; [|discriminate].
  simpl. unfold getattr, re_sub, py_or.
  destruct (party self) as [p|].
  - destruct (truthy (name self)); simpl;
      (destruct (phone p) as [number|] eqn:Hp; simpl; [|discriminate]);
      intros [= <-]; exists company_id, p, number; repeat split; exact Hp.
  - destruct (truthy (name self)); simpl; discriminate.
Qed.

(** ** Truncation *)

(** C5, as stated, fails on the desktop payload: a 40-character street
    that passes the required-field check is emitted in full under
    [Address1], and a 50-character city in full under [CityOrTown]. *)
Lemma worldship_does_not_truncate :
  succeeds (_get_ups_address_xml long_address) = true /\
  exists vals,
    to_worldship_address env1 long_address = Ok vals /\
    vals !! "Address1" = Some (PyStr street40) /\
    String.length street40 = 40%nat /\
    vals !! "Address1" <> Some (PyStr (slice_to 35 street40)) /\
    vals !! "CityOrTown" = Some (PyStr city50) /\
    String.length city50 = 50%nat /\
    vals !! "CityOrTown" <> Some (PyStr (slice_to 30 city50)).
Proof.
  split; [reflexivity|].
  eexists. split; [reflexivity|].
  repeat split; try reflexivity; vm_compute; discriminate.
Qed.

(** C5, amended.  For an address that passes the required-field check the
    REST-style payload carries under [AddressLine1] the first 35 characters
    of the street and under [City] the first 30 characters of the city
    (the whole string when it is shorter); the check does not look at the
    lengths, so an over-long value is cut, not rejected.  The desktop
    payload carries street and city in full under [Address1] and
    [CityOrTown] (the empty string when the field is empty). *)
Theorem rest_payload_truncates (self : Address) :
  (forall vals, _get_ups_address_xml self = Ok vals ->
     exists s c,
       street self = Some s /\ city self = Some c /\
       vals !! "AddressLine1" = Some (PyStr (slice_to 35 s)) /\
       vals !! "City" = Some (PyStr (slice_to 30 c)) /\
       String.length (slice_to 35 s) = Nat.min 35 (String.length s) /\
       String.length (slice_to 30 c) = Nat.min 30 (String.length c) /\
       s = slice_to 35 s +:+ slice_from 35 s /\
       c = slice_to 30 c +:+ slice_from 30 c)
  /\
  (forall c1 s1 c2 s2,
     succeeds (_get_ups_address_xml self) = true ->
     succeeds (_get_ups_address_xml
                 {| name := name self; street := Some (String c1 s1);
                    streetbis := streetbis self; city := Some (String c2 s2);
                    zip := zip self; country := country self;
                    subdivision := subdivision self; party := party self |})
     = true)
  /\
  (forall env vals, to_worldship_address env self = Ok vals ->
     vals !! "Address1" = Some (PyStr (or_empty (street self))) /\
     vals !! "CityOrTown" = Some (PyStr (or_empty (city self)))).
Proof.
  split; [|split].
  - intros vals H.
    destruct (get_ups_address_xml_Ok _ _ H)
      as (s & c & k & Hs & Hc & _ & Hl1 & Hci & _).
    exists s, c. rewrite !slice_to_length, !slice_to_from. auto 10.
  - intros c1 s1 c2 s2. rewrite !get_ups_address_xml_succeeds.
    unfold required_fields_ok. simpl.
    destruct (country self); [|discriminate].
    destruct (truthy (street self)), (truthy (city self)); simpl;
      try discriminate. auto.
  - intros env vals H.
    destruct (to_worldship_address_Ok _ _ _ H)
      as (company_id & p & number & _ & _ & _ & ->).
    split; reflexivity.
Qed.

(** ** The role payloads, key by key *)

Lemma to_ups_from_address_Ok (env : Env) (self : Address) (payload : Payload) :
  to_ups_from_address env self = Ok payload ->
  exists p number company_id address,
    party self = Some p /\ phone p = Some number /\
    truthy (phone p) = true /\
    company_from_context env = Ok company_id /\
    _get_ups_address_xml self = Ok address /\
    payload = ship_from_type address
                (from_vals (company_party env company_id) self p number).
Proof.
  unfold to_ups_from_address, getattr, raise_if, re_sub, py_or.
  destruct (party self) as [p|]; simpl; [|discriminate].
  destruct (phone p) as [[|c number]|] eqn:Hp; simpl; try discriminate.
  destruct (company_from_context env) as [company_id|]; simpl; [|discriminate].
  destruct (truthy (name self)) eqn:Hn; simpl;
    (destruct (_get_ups_address_xml self) as [address|] eqn:Ha; simpl;
       [|discriminate]);
    intros [= <-]; exists p, (String c number), company_id, address;
    unfold from_vals, py_or; rewrite Hn, Hp; repeat split; reflexivity.
Qed.

Lemma to_ups_shipper_Ok (env : Env) (self : Address) (carrier : Carrier)
    (payload : Payload) :
  to_ups_shipper env self carrier = Ok payload ->
  exists p number company_id address,
    party self = Some p /\ phone p = Some number /\
    truthy (phone p) = true /\
    company_from_context env = Ok company_id /\
    _get_ups_address_xml self = Ok address /\
    payload = shipper_type address
                (shipper_vals (company_party env company_id) self p number
                   carrier).
Proof.
  unfold to_ups_shipper, getattr, raise_if, re_sub, py_or.
  destruct (party self) as [p|]; simpl; [|discriminate].
  destruct (phone p) as [[|c number]|] eqn:Hp; simpl; try discriminate.
  destruct (company_from_context env) as [company_id|]; simpl; [|discriminate].
  destruct (truthy (name self)) eqn:Hn; simpl;
    (destruct (_get_ups_address_xml self) as [address|] eqn:Ha; simpl;
       [|discriminate]);
    match goal with
    | |- context [buildable ?v] => destruct (buildable v)
    end; try discriminate;
    intros [= <-]; exists p, (String c number), company_id, address;
    unfold shipper_vals, py_or; rewrite Hn, Hp; repeat split; reflexivity.
Qed.

(** [to_ups_to_address] fails only where the address check fails. *)
Lemma to_ups_to_address_eq (self : Address) (p : Party) :
  party self = Some p ->
  to_ups_to_address self =
    match _get_ups_address_xml self with
    | Ok address => Ok (ship_to_type address (to_vals self p))
    | Raise e => Raise e
    end.
Proof.
  intros Hp. unfold to_ups_to_address, getattr. rewrite Hp. reflexivity.
Qed.

Lemma to_ups_to_address_Ok (self : Address) (payload : Payload) :
  to_ups_to_address self = Ok payload ->
  exists p address,
    party self = Some p /\ _get_ups_address_xml self = Ok address /\
    payload = ship_to_type address (to_vals self p).
Proof.
  destruct (party self) as [p|] eqn:Hp.
  - rewrite (to_ups_to_address_eq _ _ Hp).
    destruct (_get_ups_address_xml self) as [address|]; [|discriminate].
    intros [= <-]. eauto.
  - unfold to_ups_to_address, getattr. rewrite Hp. discriminate.
Qed.

Lemma lookup_insert_if_truthy (k k' : string) (o : option string)
    (f : string -> string) (vals : gmap string pyval) :
  insert_if_truthy k o f vals !! k' =
    if bool_decide (k = k') && truthy o
    then Some (PyStr (f (or_empty o))) else vals !! k'.
Proof.
  unfold insert_if_truthy.
  destruct o as [[|c s]|]; simpl; rewrite ?andb_false_r; try reflexivity.
  rewrite andb_true_r, lookup_insert. 
  destruct (decide (k = k')) as [->|Hne].
  - rewrite bool_decide_eq_true_2 by reflexivity. reflexivity.
  - rewrite bool_decide_eq_false_2 by assumption. reflexivity.
Qed.

(** ** State code *)

(** C9. When the address has a subdivision the state field is the
    subdivision's code without its first three characters ("US-TX" gives
    "TX"), in the REST-style payload ([StateProvinceCode]) and in the
    desktop payload ([StateProvinceCounty]); the REST-style payload has the
    key only when the address has a subdivision. *)
Theorem state_code_drops_prefix (self : Address) :
  (forall vals, _get_ups_address_xml self = Ok vals ->
     vals !! "StateProvinceCode" =
       match subdivision self with
       | Some sd => Some (PyStr (slice_from 3 (sub_code sd)))
       | None => None
       end)
  /\
  (forall env vals sd,
     to_worldship_address env self = Ok vals ->
     subdivision self = Some sd ->
     vals !! "StateProvinceCounty" = Some (PyStr (slice_from 3 (sub_code sd))))
  /\
  (forall sd, subdivision self = Some sd ->
     sub_code sd = slice_to 3 (sub_code sd) +:+ slice_from 3 (sub_code sd) /\
     String.length (slice_to 3 (sub_code sd))
       = Nat.min 3 (String.length (sub_code sd)))
  /\
  slice_from 3 "US-TX" = "TX".
Proof.
  repeat split.
  - intros vals H.
    destruct (get_ups_address_xml_Ok _ _ H)
      as (s & c & k & _ & _ & _ & _ & _ & _ & _ & Hst & _).
    rewrite Hst. destruct (subdivision self); reflexivity.
  - intros env vals sd H Hsd.
    destruct (to_worldship_address_Ok _ _ _ H)
      as (company_id & p & number & _ & _ & _ & ->).
    rewrite Hsd. reflexivity.
  - symmetry. apply slice_to_from.
  - apply slice_to_length.
Qed.

Lemma state_code_drops_prefix_witness :
  exists address vals,
    _get_ups_address_xml long_address = Ok address /\
    address !! "StateProvinceCode" = Some (PyStr "TX") /\
    to_worldship_address env1 long_address = Ok vals /\
    vals !! "StateProvinceCounty" = Some (PyStr "TX").
Proof.
  destruct (state_code_drops_prefix long_address) as (Hrest & Hdesk & _).
  eexists. eexists.
  split; [reflexivity|].
  split; [exact (Hrest _ eq_refl)|].
  split; [reflexivity|].
  exact (Hdesk env1 _ {| sub_id := 7; sub_code := "US-TX" |} eq_refl eq_refl).
Defined.

(** ** Fax number and the keys of the desktop payload *)

(** C6. The desktop payload is to hold the empty string in place of
    every absent optional value.  At an address without postal code and
    without subdivision the code does so for the postal code, but under
    [StateProvinceCounty] it stores [None], and the two desktop elements
    built from the dictionary then raise [TypeError]. *)
Lemma worldship_absent_state_is_None :
  zip bare_address = None /\ subdivision bare_address = None /\
  (exists vals,
     to_worldship_address env1 bare_address = Ok vals /\
     vals !! "PostalCode" = Some (PyStr EmptyString) /\
     vals !! "StateProvinceCounty" = Some PyNone /\
     vals !! "StateProvinceCounty" <> Some (PyStr EmptyString)) /\
  to_worldship_to_address env1 bare_address = Raise TypeError /\
  to_worldship_from_address env1 bare_address = Raise TypeError.
Proof.
  split; [reflexivity|]. split; [reflexivity|]. split.
  - eexists. split; [reflexivity|]. split; [reflexivity|].
    split; [reflexivity|]. vm_compute. discriminate.
  - split; vm_compute; reflexivity.
Qed.

Lemma or_empty_falsy (o : option string) :
  truthy o = false -> or_empty o = EmptyString.
Proof. destruct o as [[|c s]|]; simpl; intros H; congruence. Qed.

(** What the code does with an empty fax number and under the keys of the
    desktop dictionary.  When the party's fax number is empty, the three
    REST-style role payloads have no [FaxNumber] key.  The desktop
    dictionary, whenever it is produced, has the same nine keys; under
    them an empty street, second street line, postal code or city gives
    the empty string, while a missing country or subdivision leaves
    [None]; it has no fax key. *)
Theorem fax_omitted_and_worldship_keys (self : Address) :
  (forall env carrier p payload,
     party self = Some p -> truthy (fax p) = false ->
     to_ups_from_address env self = Ok payload
     \/ to_ups_to_address self = Ok payload
     \/ to_ups_shipper env self carrier = Ok payload ->
     payload_vals payload !! "FaxNumber" = None)
  /\
  (forall env vals,
     to_worldship_address env self = Ok vals ->
     dom vals = worldship_keys /\
     vals !! "FaxNumber" = None /\
     (truthy (street self) = false ->
      vals !! "Address1" = Some (PyStr EmptyString)) /\
     (truthy (streetbis self) = false ->
      vals !! "Address2" = Some (PyStr EmptyString)) /\
     (truthy (zip self) = false ->
      vals !! "PostalCode" = Some (PyStr EmptyString)) /\
     (truthy (city self) = false ->
      vals !! "CityOrTown" = Some (PyStr EmptyString)) /\
     (country self = None -> vals !! "CountryTerritory" = Some PyNone) /\
     (subdivision self = None ->
      vals !! "StateProvinceCounty" = Some PyNone)).
Proof.
  split.
  - intros env carrier p payload Hp Hfax [H|[H|H]].
    + apply to_ups_from_address_Ok in H
        as (p' & number & cid & address & Hp' & _ & _ & _ & _ & ->).
      assert (p' = p) as -> by congruence.
      simpl. unfold from_vals.
      rewrite !lookup_insert_if_truthy, Hfax. reflexivity.
    + apply to_ups_to_address_Ok in H as (p' & address & Hp' & _ & ->).
      assert (p' = p) as -> by congruence.
      simpl. unfold to_vals.
      rewrite !lookup_insert_if_truthy, Hfax. reflexivity.
    + apply to_ups_shipper_Ok in H
        as (p' & number & cid & address & Hp' & _ & _ & _ & _ & ->).
      assert (p' = p) as -> by congruence.
      simpl. unfold shipper_vals.
      rewrite !lookup_insert_if_truthy, Hfax. reflexivity.
  - intros env vals H.
    destruct (to_worldship_address_Ok _ _ _ H)
      as (company_id & p & number & _ & _ & _ & ->).
    split; [|split; [reflexivity|]].
    + unfold worldship_keys. rewrite !dom_insert_L, dom_singleton_L.
      set_solver.
    + repeat split.
      * intros E. rewrite (or_empty_falsy _ E). reflexivity.
      * intros E. rewrite (or_empty_falsy _ E). reflexivity.
      * intros E. rewrite (or_empty_falsy _ E). reflexivity.
      * intros E. rewrite (or_empty_falsy _ E). reflexivity.
      * intros E. rewrite E. reflexivity.
      * intros E. rewrite E. reflexivity.
Qed.

Lemma fax_omitted_and_worldship_keys_witness :
  exists payload vals,
    to_ups_to_address bare_address = Ok payload /\
    payload_vals payload !! "FaxNumber" = None /\
    to_worldship_address env1 bare_address = Ok vals /\
    dom vals = worldship_keys /\
    vals !! "PostalCode" = Some (PyStr EmptyString) /\
    vals !! "StateProvinceCounty" = Some PyNone.
Proof.
  destruct (fax_omitted_and_worldship_keys bare_address) as [Hrest Hdesk].
  eexists. eexists.
  split; [reflexivity|].
  split.
  { apply (Hrest env1 {| ups_shipper_no := None |} lone_party);
      [reflexivity | reflexivity | right; left; reflexivity]. }
  split; [reflexivity|].
  destruct (Hdesk env1 _ eq_refl) as (Hdom & _ & _ & _ & Hzip & _ & _ & Hst).
  split; [exact Hdom|].
  split; [exact (Hzip eq_refl) | exact (Hst eq_refl)].
Defined.

(** ** Phone number and company *)

Lemma company_from_context_missing (env : Env) :
  context_company env = None \/ context_company env = Some 0 ->
  company_from_context env =
    Raise (UserError (ups_field_missing "Company" "context")).
Proof.
  unfold company_from_context. intros [-> | ->]; reflexivity.
Qed.

(** C7. In [to_ups_from_address] and [to_ups_shipper] an empty phone number
    of the party fails with the 'Phone no.' message naming the role,
    whatever the context holds (the check comes before the company is
    looked up); with a phone number and no company in the context both
    fail with "Company is missing in context."; a failure returns no
    payload. *)
Theorem from_and_shipper_require_phone_and_company
    (env : Env) (self : Address) (carrier : Carrier) (p : Party) :
  party self = Some p ->
  (truthy (phone p) = false ->
   to_ups_from_address env self =
     Raise (UserError (ups_field_missing "Phone no." (quoted "from address")))
   /\
   to_ups_shipper env self carrier =
     Raise (UserError (ups_field_missing "Phone no." (quoted "Shipper Address"))))
  /\
  (truthy (phone p) = true ->
   context_company env = None \/ context_company env = Some 0 ->
   to_ups_from_address env self = Raise (UserError "Company is missing in context.")
   /\
   to_ups_shipper env self carrier = Raise (UserError "Company is missing in context."))
  /\
  (forall payload,
     to_ups_from_address env self = Ok payload
     \/ to_ups_shipper env self carrier = Ok payload ->
     truthy (phone p) = true /\
     exists company_id, context_company env = Some company_id /\ company_id <> 0).
Proof.
  intros Hp. split; [|split].
  - intros Hph.
    unfold to_ups_from_address, to_ups_shipper, getattr, raise_if.
    rewrite Hp. simpl. rewrite Hph. simpl. split; reflexivity.
  - intros Hph Hctx.
    unfold to_ups_from_address, to_ups_shipper, getattr, raise_if.
    rewrite Hp. simpl. rewrite Hph. simpl.
    rewrite (company_from_context_missing _ Hctx). split; reflexivity.
  - intros payload [H|H].
    + apply to_ups_from_address_Ok in H
        as (p' & number & cid & address & Hp' & _ & Hph & Hc & _).
      assert (p' = p) as -> by congruence.
      split; [exact Hph|]. exists cid. now apply company_from_context_Ok.
    + apply to_ups_shipper_Ok in H
        as (p' & number & cid & address & Hp' & _ & Hph & Hc & _).
      assert (p' = p) as -> by congruence.
      split; [exact Hph|]. exists cid. now apply company_from_context_Ok.
Qed.

Lemma from_and_shipper_require_phone_and_company_witness :
  to_ups_from_address env_without_company mute_address =
    Raise (UserError (ups_field_missing "Phone no." (quoted "from address")))
  /\
  to_ups_shipper env_without_company long_address {| ups_shipper_no := None |} =
    Raise (UserError "Company is missing in context.").
Proof.
  split.
  - exact (proj1 (proj1 (from_and_shipper_require_phone_and_company
                           env_without_company mute_address
                           {| ups_shipper_no := None |} mute_party eq_refl)
                    eq_refl)).
  - exact (proj2 (proj1 (proj2 (from_and_shipper_require_phone_and_company
                           env_without_company long_address
                           {| ups_shipper_no := None |} acme eq_refl))
                    eq_refl (or_introl eq_refl))).
Defined.

(** ** Tax identification number *)

(** C8, as stated, fails for the ship-from and shipper roles: with no
    identifier and a tax exemption number on both the company's party and
    the address's party, the emitted number is empty. *)
Lemma from_and_shipper_ignore_tax_exemption :
  identifiers acme = [] /\
  tax_exemption_number acme = Some (Some "EX-77") /\
  party long_address = Some acme /\
  company_party env1 1 = acme /\
  exists from shipper,
    to_ups_from_address env1 long_address = Ok from /\
    payload_vals from !! "TaxIdentificationNumber" = Some (PyStr EmptyString) /\
    payload_vals from !! "TaxIdentificationNumber" <> Some (PyStr "EX-77") /\
    to_ups_shipper env1 long_address {| ups_shipper_no := Some "A1B2C3" |}
      = Ok shipper /\
    payload_vals shipper !! "TaxIdentificationNumber" = Some (PyStr EmptyString) /\
    payload_vals shipper !! "TaxIdentificationNumber" <> Some (PyStr "EX-77").
Proof.
  repeat split.
  eexists. eexists.
  split; [vm_compute; reflexivity|].
  split; [reflexivity|].
  split; [vm_compute; discriminate|].
  split; [vm_compute; reflexivity|].
  split; [reflexivity|].
  vm_compute; discriminate.
Qed.

(** C8, amended.  The ship-to payload takes its
    [TaxIdentificationNumber] from the address's party: the code of the
    first identifier if there is one; otherwise the tax exemption number if
    the party exposes one and it is not empty; otherwise the empty string.
    The ship-from and shipper payloads take it from the company's party:
    the code of its first identifier if there is one, otherwise the empty
    string; they do not read a tax exemption number. *)
Theorem tax_identification_number_resolution (self : Address) :
  (forall payload p,
     to_ups_to_address self = Ok payload -> party self = Some p ->
     let emitted := payload_vals payload !! "TaxIdentificationNumber" in
     (forall i rest, identifiers p = i :: rest ->
        emitted = Some (PyStr (identifier_code i))) /\
     (forall c s, identifiers p = [] ->
        tax_exemption_number p = Some (Some (String c s)) ->
        emitted = Some (PyStr (String c s))) /\
     (identifiers p = [] ->
      tax_exemption_number p = None
      \/ tax_exemption_number p = Some None
      \/ tax_exemption_number p = Some (Some EmptyString) ->
      emitted = Some (PyStr EmptyString)))
  /\
  (forall env carrier payload,
     to_ups_from_address env self = Ok payload
     \/ to_ups_shipper env self carrier = Ok payload ->
     exists company_id,
       context_company env = Some company_id /\
       let company := company_party env company_id in
       let emitted := payload_vals payload !! "TaxIdentificationNumber" in
       (forall i rest, identifiers company = i :: rest ->
          emitted = Some (PyStr (identifier_code i))) /\
       (identifiers company = [] -> emitted = Some (PyStr EmptyString))).
Proof.
  split.
  - intros payload p H Hp.
    apply to_ups_to_address_Ok in H as (p' & address & Hp' & _ & ->).
    assert (p' = p) as -> by congruence.
    simpl. unfold to_vals. rewrite !lookup_insert_if_truthy. simpl.
    assert (E : ({[ "CompanyName" := to_pyval (py_or (name self) (party_name p));
                    "TaxIdentificationNumber" := tax_identification_number p;
                    "AttentionName" := to_pyval (py_or (name self) (party_name p)) ]}
                 : gmap string pyval) !! "TaxIdentificationNumber"
                = Some (tax_identification_number p)) by reflexivity.
    rewrite E. unfold tax_identification_number.
    repeat split.
    + intros i rest ->. reflexivity.
    + intros c s -> ->. reflexivity.
    + intros -> [-> | [-> | ->]]; reflexivity.
  - intros env carrier payload [H|H].
    + apply to_ups_from_address_Ok in H
        as (p & number & cid & address & _ & _ & _ & Hc & _ & ->).
      exists cid. split; [now apply company_from_context_Ok|].
      simpl. unfold from_vals. rewrite !lookup_insert_if_truthy. simpl.
      split.
      * intros i rest E.
        transitivity (Some (PyStr (first_code_or_empty
                                     (identifiers (company_party env cid)))));
          [reflexivity|].
        rewrite E. simpl. destruct (identifier_code i); reflexivity.
      * intros E.
        transitivity (Some (PyStr (first_code_or_empty
                                     (identifiers (company_party env cid)))));
          [reflexivity|].
        rewrite E. reflexivity.
    + apply to_ups_shipper_Ok in H
        as (p & number & cid & address & _ & _ & _ & Hc & _ & ->).
      exists cid. split; [now apply company_from_context_Ok|].
      simpl. unfold shipper_vals. rewrite !lookup_insert_if_truthy. simpl.
      split.
      * intros i rest E.
        transitivity (Some (PyStr (first_code_or_empty
                                     (identifiers (company_party env cid)))));
          [reflexivity|].
        rewrite E. simpl. destruct (identifier_code i); reflexivity.
      * intros E.
        transitivity (Some (PyStr (first_code_or_empty
                                     (identifiers (company_party env cid)))));
          [reflexivity|].
        rewrite E. reflexivity.
Qed.

Lemma tax_identification_number_resolution_witness :
  exists to from,
    to_ups_to_address long_address = Ok to /\
    payload_vals to !! "TaxIdentificationNumber" = Some (PyStr "EX-77") /\
    to_ups_from_address env1 long_address = Ok from /\
    payload_vals from !! "TaxIdentificationNumber" = Some (PyStr EmptyString).
Proof.
  destruct (tax_identification_number_resolution long_address) as [Hto Hfrom].
  eexists. eexists.
  split; [vm_compute; reflexivity|].
  split.
  { destruct (Hto _ acme eq_refl eq_refl) as (_ & Hex & _).
    exact (Hex _ _ eq_refl eq_refl). }
  split; [vm_compute; reflexivity|].
  destruct (Hfrom env1 {| ups_shipper_no := None |} _ (or_introl eq_refl))
    as (cid & Hcid & _ & Hnone).
  exact (Hnone eq_refl).
Defined.

(** ** Phone number of the ship-to payload *)




(** ** Comparing up to letter case *)

(** The comparison of two upper-cased strings is the comparison of their
    characters through the table, position by position. *)
Lemma upper_eq_pairwise (toupper : ascii -> ascii) (s t : string) :
  upper toupper s = upper toupper t <->
  pairwise (fun c d => toupper c = toupper d) s t.
Proof.
  revert t. induction s as [|c s IH]; intros [|d t]; simpl;
    try (split; [discriminate | tauto]); [tauto|].
  rewrite <- IH. split.
  - intros [= H1 H2]. auto.
  - intros [-> ->]. reflexivity.
Qed.

Lemma nat_of_ascii_inj (c d : ascii) :
  nat_of_ascii c = nat_of_ascii d -> c = d.
Proof.
  intros H. rewrite <- (ascii_nat_embedding c), <- (ascii_nat_embedding d), H.
  reflexivity.
Qed.

(** On ASCII characters a table that folds a to z identifies exactly the
    two forms of a letter. *)
Lemma folds_ascii_same_letter (toupper : ascii -> ascii) (c d : ascii) :
  folds_ascii toupper ->
  (nat_of_ascii c < 128)%nat -> (nat_of_ascii d < 128)%nat ->
  toupper c = toupper d <-> same_letter c d.
Proof.
  intros Hfold Hc Hd.
  destruct (Hfold c Hc) as [Hc1 Hc2]. destruct (Hfold d Hd) as [Hd1 Hd2].
  unfold same_letter.
  destruct (le_lt_dec 97 (nat_of_ascii c)) as [Lc|Lc];
    [destruct (le_lt_dec (nat_of_ascii c) 122) as [Uc|Uc]|];
    (destruct (le_lt_dec 97 (nat_of_ascii d)) as [Ld|Ld];
       [destruct (le_lt_dec (nat_of_ascii d) 122) as [Ud|Ud]|]).
  all: try (specialize (Hc1 ltac:(lia)); clear Hc2).
  all: try (specialize (Hc2 ltac:(lia)); clear Hc1).
  all: try (specialize (Hd1 ltac:(lia)); clear Hd2).
  all: try (specialize (Hd2 ltac:(lia)); clear Hd1).
  all: split.
  all: try (intros H; apply (f_equal nat_of_ascii) in H;
            rewrite ?Hc1, ?Hc2, ?Hd1, ?Hd2 in H;
            first [ left; apply nat_of_ascii_inj; lia
                  | right; left; lia
                  | right; right; lia ]).
  all: intros [-> | [[H1 H2] | [H1 H2]]]; try reflexivity; try lia.
  all: apply nat_of_ascii_inj; rewrite ?Hc1, ?Hc2, ?Hd1, ?Hd2; lia.
Qed.

(** On ASCII strings the comparison after [upper] is the comparison up to
    the case of the letters a to z. *)
Lemma upper_eq_same_letters (toupper : ascii -> ascii) (s t : string) :
  folds_ascii toupper -> ascii_text s -> ascii_text t ->
  upper toupper s = upper toupper t <-> pairwise same_letter s t.
Proof.
  intros Hfold. rewrite upper_eq_pairwise. revert t.
  induction s as [|c s IH]; intros [|d t]; simpl; try tauto.
  intros [Hc Hs] [Hd Ht].
  rewrite (folds_ascii_same_letter toupper c d Hfold Hc Hd), (IH t Hs Ht).
  tauto.
Qed.

Lemma upper_char_folds_ascii : folds_ascii upper_char.
Proof.
  intros c Hc. unfold upper_char. split.
  - intros [L U].
    apply Nat.leb_le in L, U. rewrite L, U. simpl.
    apply nat_ascii_embedding. apply Nat.leb_le in L, U. lia.
  - intros H.
    destruct (97 <=? nat_of_ascii c)%nat eqn:L; [|reflexivity].
    destruct (nat_of_ascii c <=? 122)%nat eqn:U; [|reflexivity].
    apply Nat.leb_le in L, U. lia.
Qed.

(** ** Reconciliation *)

Section Reconciliation.

(** The case table of the runtime; nothing is assumed of it. *)
Variable toupper : ascii -> ascii.

Lemma subdivision_eq_true (mine : option Subdivision) (sd : Subdivision) :
  subdivision_eq mine sd = true <->
  exists mine_sd, mine = Some mine_sd /\ sub_id mine_sd = sub_id sd.
Proof.
  destruct mine as [m|]; simpl.
  - rewrite Z.eqb_eq. split.
    + intros H. exists m. auto.
    + intros (m' & [= <-] & H). exact H.
  - split; [discriminate | intros (m' & H & _); discriminate].
Qed.

(** The test of the loop body is the [confirms] relation. *)
Lemma confirms_test (table : list Subdivision) (self : Address)
    (address : Suggestion) (c : Country) (sd : Subdivision) (mine : string) :
  country self = Some c ->
  Subdivision_search table (subdivision_query c address) = [sd] ->
  city self = Some mine ->
  String.eqb (upper toupper mine) (upper toupper (suggestion_city address))
  && subdivision_eq (subdivision self) sd = true
  <-> confirms toupper table self address.
Proof.
  intros Hc Hs Hm. rewrite andb_true_iff, String.eqb_eq, subdivision_eq_true.
  split.
  - intros (Hu & m & Hsd & Hid). exists sd, mine, m.
    repeat split; try assumption. exists c. auto.
  - intros (sd' & mine' & m & (c' & Hc' & Hs') & Hm' & Hu & Hsd & Hid).
    assert (c' = c) as -> by congruence.
    assert (mine' = mine) as -> by congruence.
    unfold subdivision_query in Hs. rewrite Hs in Hs'.
    injection Hs' as <-. eauto.
Qed.

Lemma confirms_needs (table : list Subdivision) (self : Address)
    (address : Suggestion) :
  confirms toupper table self address ->
  exists c sd mine,
    country self = Some c /\ city self = Some mine /\
    Subdivision_search table (subdivision_query c address) = [sd].
Proof.
  intros (sd & mine & m & (c & Hc & Hs) & Hm & _). exists c, sd, mine. auto.
Qed.

Lemma unresolvable_not_confirms (table : list Subdivision) (self : Address)
    (address : Suggestion) :
  unresolvable table self address -> ~ confirms toupper table self address.
Proof.
  intros (c & Hc & Hlen) (sd & mine & m & (c' & Hc' & Hs) & _).
  assert (c' = c) as -> by congruence.
  rewrite Hs in Hlen. simpl in Hlen. congruence.
Qed.

(** One turn of the loop on a suggestion that does not resolve. *)
Lemma iterate_skip (table : list Subdivision) (self : Address)
    (c : Country) (address : Suggestion) (rest : list Suggestion)
    (matches : list Address) (log : list string) :
  country self = Some c ->
  length (Subdivision_search table (subdivision_query c address)) <> 1%nat ->
  iterate toupper table self (address :: rest) matches log
  = iterate toupper table self rest matches (log ++ [subdivision_query c address])%list.
Proof.
  intros Hc Hlen. simpl. rewrite Hc.
  destruct (Subdivision_search table (subdivision_query c address))
    as [|sd [|sd' l]]; simpl in Hlen; congruence.
Qed.

(** One turn of the loop on a suggestion that resolves and differs from
    the address. *)
Lemma iterate_append (table : list Subdivision) (self : Address)
    (c : Country) (sd : Subdivision) (mine : string)
    (address : Suggestion) (rest : list Suggestion)
    (matches : list Address) (log : list string) :
  country self = Some c ->
  Subdivision_search table (subdivision_query c address) = [sd] ->
  city self = Some mine ->
  ~ confirms toupper table self address ->
  iterate toupper table self (address :: rest) matches log
  = iterate toupper table self rest (matches ++ [candidate self address sd])%list
      (log ++ [subdivision_query c address])%list.
Proof.
  intros Hc Hs Hm Hn. simpl. rewrite Hc, Hs, Hm.
  destruct (String.eqb (upper toupper mine) (upper toupper (suggestion_city address))
            && subdivision_eq (subdivision self) sd) eqn:E; [|reflexivity].
  exfalso. apply Hn. eapply confirms_test; eassumption.
Qed.

(** One turn of the loop on a suggestion that repeats the address. *)
Lemma iterate_confirm (table : list Subdivision) (self : Address)
    (c : Country) (address : Suggestion) (rest : list Suggestion)
    (matches : list Address) (log : list string) :
  country self = Some c ->
  confirms toupper table self address ->
  iterate toupper table self (address :: rest) matches log
  = {| outcome := Ok Exact;
       searched := (log ++ [subdivision_query c address])%list |}.
Proof.
  intros Hc Hconf.
  destruct (confirms_needs _ _ _ Hconf) as (c' & sd & mine & Hc' & Hm & Hs).
  assert (c' = c) as -> by congruence.
  simpl. rewrite Hc, Hs, Hm.
  apply (confirms_test _ _ _ _ _ _ Hc Hs Hm) in Hconf. rewrite Hconf.
  reflexivity.
Qed.

(** A suggestion either resolves to one record or is unresolvable. *)
Lemma resolve_cases (table : list Subdivision) (self : Address)
    (c : Country) (address : Suggestion) :
  country self = Some c ->
  (exists sd, Subdivision_search table (subdivision_query c address) = [sd])
  \/ (unresolvable table self address /\
      length (Subdivision_search table (subdivision_query c address)) <> 1%nat).
Proof.
  intros Hc.
  destruct (Subdivision_search table (subdivision_query c address))
    as [|sd [|sd' l]] eqn:E.
  - right. split; [exists c; split; [exact Hc|] |]; unfold subdivision_query in E;
      try rewrite E; simpl; congruence.
  - left. eauto.
  - right. split; [exists c; split; [exact Hc|] |]; unfold subdivision_query in E;
      try rewrite E; simpl; congruence.
Qed.

(** The loop stops at the first suggestion that repeats the address: the
    run is settled there, whatever follows. *)
Lemma iterate_first_confirm (table : list Subdivision) (self : Address)
    (c : Country) (pre : list Suggestion) (address : Suggestion)
    (post : list Suggestion) :
  country self = Some c ->
  Forall (fun x => ~ confirms toupper table self x) pre ->
  confirms toupper table self address ->
  forall matches log,
    iterate toupper table self (pre ++ address :: post) matches log
    = {| outcome := Ok Exact;
         searched := (log ++ map (subdivision_query c) (pre ++ [address]))%list |}.
Proof.
  intros Hc Hpre Hconf.
  destruct (confirms_needs _ _ _ Hconf) as (c' & _ & mine & _ & Hm & _).
  induction Hpre as [|x pre Hx Hpre IH]; intros matches log.
  - apply iterate_confirm; assumption.
  - change ((x :: pre) ++ address :: post)%list
      with (x :: (pre ++ address :: post))%list.
    destruct (resolve_cases table self c x Hc) as [[sd Hs] | [_ Hlen]].
    + rewrite (iterate_append _ _ _ _ _ _ _ _ _ Hc Hs Hm Hx), IH.
      simpl. rewrite <- app_assoc. reflexivity.
    + rewrite (iterate_skip _ _ _ _ _ _ _ Hc Hlen), IH.
      simpl. rewrite <- app_assoc. reflexivity.
Qed.

Lemma iterate_nil (table : list Subdivision) (self : Address)
    (matches : list Address) (log : list string) :
  iterate toupper table self [] matches log
  = {| outcome := Ok (Candidates matches); searched := log |}.
Proof. reflexivity. Qed.

Lemma iterate_no_country (table : list Subdivision) (self : Address)
    (address : Suggestion) (rest : list Suggestion)
    (matches : list Address) (log : list string) :
  country self = None ->
  iterate toupper table self (address :: rest) matches log
  = {| outcome := Raise AttributeError; searched := log |}.
Proof. intros Hc. simpl. rewrite Hc. reflexivity. Qed.

Lemma iterate_no_city (table : list Subdivision) (self : Address)
    (c : Country) (sd : Subdivision)
    (address : Suggestion) (rest : list Suggestion)
    (matches : list Address) (log : list string) :
  country self = Some c ->
  Subdivision_search table (subdivision_query c address) = [sd] ->
  city self = None ->
  iterate toupper table self (address :: rest) matches log
  = {| outcome := Raise AttributeError;
       searched := (log ++ [subdivision_query c address])%list |}.
Proof. intros Hc Hs Hm. simpl. rewrite Hc, Hs, Hm. reflexivity. Qed.

#[local] Opaque iterate.

(** An [Exact] outcome of the loop comes from a first suggestion that
    repeats the address. *)
Lemma iterate_Exact_inv (table : list Subdivision) (self : Address)
    (todo : list Suggestion) :
  forall matches log,
    outcome (iterate toupper table self todo matches log) = Ok Exact ->
    exists pre address post,
      todo = (pre ++ address :: post)%list /\
      Forall (fun x => ~ confirms toupper table self x) pre /\
      confirms toupper table self address.
Proof.
  induction todo as [|x rest IH]; intros matches log.
  - rewrite iterate_nil. discriminate.
  - destruct (country self) as [c|] eqn:Hc;
      [|rewrite iterate_no_country by assumption; discriminate].
    destruct (resolve_cases table self c x Hc) as [[sd Hs] | [Hun Hlen]].
    + destruct (city self) as [mine|] eqn:Hm;
        [|rewrite (iterate_no_city _ _ _ _ _ _ _ _ Hc Hs Hm); discriminate].
      destruct (String.eqb (upper toupper mine) (upper toupper (suggestion_city x))
                && subdivision_eq (subdivision self) sd) eqn:E.
      * intros _. exists [], x, rest. repeat split; [constructor|].
        eapply confirms_test; eassumption.
      * assert (Hx : ~ confirms toupper table self x).
        { intros Hx. apply (confirms_test _ _ _ _ _ _ Hc Hs Hm) in Hx.
          congruence. }
        rewrite (iterate_append _ _ _ _ _ _ _ _ _ Hc Hs Hm Hx).
        intros H. destruct (IH _ _ H) as (pre & a & post & -> & Hpre & Ha).
        exists (x :: pre), a, post. repeat split; [constructor|]; assumption.
    + rewrite (iterate_skip _ _ _ _ _ _ _ Hc Hlen).
      intros H. destruct (IH _ _ H) as (pre & a & post & -> & Hpre & Ha).
      exists (x :: pre), a, post. repeat split; [constructor|]; try assumption.
      now apply unresolvable_not_confirms.
Qed.

(** A suggestion that repeats the address, anywhere in the list, gives
    [Exact]. *)
Lemma iterate_Exists (table : list Subdivision) (self : Address)
    (todo : list Suggestion) :
  Exists (confirms toupper table self) todo ->
  forall matches log,
    outcome (iterate toupper table self todo matches log) = Ok Exact.
Proof.
  intros Hex.
  assert (exists c mine, country self = Some c /\ city self = Some mine)
    as (c & mine & Hc & Hm).
  { apply Exists_exists in Hex as (a & _ & Ha).
    destruct (confirms_needs _ _ _ Ha) as (c & _ & mine & ? & ? & _). eauto. }
  induction Hex as [x rest Hx | x rest Hex IH]; intros matches log.
  - rewrite (iterate_confirm _ _ _ _ _ _ _ Hc Hx). reflexivity.
  - destruct (resolve_cases table self c x Hc) as [[sd Hs] | [Hun Hlen]].
    + destruct (String.eqb (upper toupper mine) (upper toupper (suggestion_city x))
                && subdivision_eq (subdivision self) sd) eqn:E.
      * apply (confirms_test _ _ _ _ _ _ Hc Hs Hm) in E.
        rewrite (iterate_confirm _ _ _ _ _ _ _ Hc E). reflexivity.
      * assert (Hx : ~ confirms toupper table self x).
        { intros Hx. apply (confirms_test _ _ _ _ _ _ Hc Hs Hm) in Hx.
          congruence. }
        rewrite (iterate_append _ _ _ _ _ _ _ _ _ Hc Hs Hm Hx). apply IH.
    + rewrite (iterate_skip _ _ _ _ _ _ _ Hc Hlen). apply IH.
Qed.

Lemma queries_cons (self : Address) (c : Country) (x : Suggestion)
    (rest : list Suggestion) :
  country self = Some c ->
  queries self (x :: rest) = subdivision_query c x :: queries self rest.
Proof. intros Hc. unfold queries. rewrite Hc. reflexivity. Qed.

(** A [Candidates] outcome of the loop: every suggestion was looked up,
    none repeats the address, and the list is what was there followed by
    the candidates of the suggestions that resolve, in their order. *)
Lemma iterate_Candidates_inv (table : list Subdivision) (self : Address)
    (todo : list Suggestion) :
  forall matches log l,
    outcome (iterate toupper table self todo matches log) = Ok (Candidates l) ->
    l = (matches ++ omap (candidate_of table self) todo)%list /\
    searched (iterate toupper table self todo matches log)
    = (log ++ queries self todo)%list /\
    Forall (fun x => ~ confirms toupper table self x) todo.
Proof.
  induction todo as [|x rest IH]; intros matches log l.
  - rewrite iterate_nil. simpl. intros [= <-].
    unfold queries. destruct (country self); simpl; rewrite !app_nil_r; auto.
  - destruct (country self) as [c|] eqn:Hc;
      [|rewrite iterate_no_country by assumption; discriminate].
    rewrite (queries_cons _ _ _ _ Hc).
    destruct (resolve_cases table self c x Hc) as [[sd Hs] | [Hun Hlen]].
    + destruct (city self) as [mine|] eqn:Hm;
        [|rewrite (iterate_no_city _ _ _ _ _ _ _ _ Hc Hs Hm); discriminate].
      destruct (String.eqb (upper toupper mine) (upper toupper (suggestion_city x))
                && subdivision_eq (subdivision self) sd) eqn:E.
      * apply (confirms_test _ _ _ _ _ _ Hc Hs Hm) in E.
        rewrite (iterate_confirm _ _ _ _ _ _ _ Hc E). discriminate.
      * assert (Hx : ~ confirms toupper table self x).
        { intros Hx. apply (confirms_test _ _ _ _ _ _ Hc Hs Hm) in Hx.
          congruence. }
        rewrite (iterate_append _ _ _ _ _ _ _ _ _ Hc Hs Hm Hx).
        intros H. destruct (IH _ _ _ H) as (-> & -> & Hrest).
        simpl. unfold candidate_of at 2. rewrite Hc, Hs. simpl.
        rewrite <- !app_assoc. auto.
    + rewrite (iterate_skip _ _ _ _ _ _ _ Hc Hlen).
      intros H. destruct (IH _ _ _ H) as (-> & -> & Hrest).
      simpl. unfold candidate_of at 2. rewrite Hc.
      split; [|split].
      * destruct (Subdivision_search table (subdivision_query c x))
          as [|sd [|sd' l']]; try reflexivity; simpl in Hlen; congruence.
      * rewrite <- app_assoc. reflexivity.
      * constructor; [now apply unresolvable_not_confirms | assumption].
Qed.

(** With a country and a city on the address the loop returns. *)
Lemma iterate_total (table : list Subdivision) (self : Address)
    (c : Country) (mine : string) (todo : list Suggestion) :
  country self = Some c -> city self = Some mine ->
  forall matches log,
    exists v, outcome (iterate toupper table self todo matches log) = Ok v.
Proof.
  intros Hc Hm. induction todo as [|x rest IH]; intros matches log.
  - rewrite iterate_nil. eauto.
  - destruct (resolve_cases table self c x Hc) as [[sd Hs] | [Hun Hlen]].
    + destruct (String.eqb (upper toupper mine) (upper toupper (suggestion_city x))
                && subdivision_eq (subdivision self) sd) eqn:E.
      * apply (confirms_test _ _ _ _ _ _ Hc Hs Hm) in E.
        rewrite (iterate_confirm _ _ _ _ _ _ _ Hc E). simpl. eauto.
      * assert (Hx : ~ confirms toupper table self x).
        { intros Hx. apply (confirms_test _ _ _ _ _ _ Hc Hs Hm) in Hx.
          congruence. }
        rewrite (iterate_append _ _ _ _ _ _ _ _ _ Hc Hs Hm Hx). apply IH.
    + rewrite (iterate_skip _ _ _ _ _ _ _ Hc Hlen). apply IH.
Qed.

(** When no suggestion resolves the loop returns what it started with. *)
Lemma iterate_all_unresolvable (table : list Subdivision) (self : Address)
    (todo : list Suggestion) :
  Forall (unresolvable table self) todo ->
  forall matches log,
    iterate toupper table self todo matches log
    = {| outcome := Ok (Candidates matches);
         searched := (log ++ queries self todo)%list |}.
Proof.
  induction 1 as [|x rest Hx Hrest IH]; intros matches log.
  - rewrite iterate_nil. unfold queries.
    destruct (country self); simpl; rewrite app_nil_r; reflexivity.
  - destruct Hx as (c & Hc & Hlen).
    rewrite (iterate_skip _ _ _ _ _ _ _ Hc Hlen), IH.
    rewrite (queries_cons _ _ _ _ Hc), <- app_assoc. reflexivity.
Qed.

Lemma validate_loop (table : list Subdivision) (self : Address)
    (response : Response) :
  valid response = false \/ suggestions response <> [] ->
  _ups_address_validate toupper table self response
  = iterate toupper table self (suggestions response) [] [].
Proof.
  unfold _ups_address_validate.
  intros [-> | Hne]; [reflexivity|].
  destruct (suggestions response); [congruence|].
  rewrite andb_false_r. reflexivity.
Qed.

(** C1. The validation returns [Exact] exactly when the response is valid
    with no suggestion, or some suggestion resolves to a single
    subdivision record, has the address's city up to letter case and
    resolves to the address's subdivision.  The first such suggestion ends
    the loop: the run is [Exact] with the searches up to that suggestion,
    whatever comes after it in the list.  The cities are compared after
    [upper()]: they have the same length and, position by position,
    characters with the same upper case in the runtime's table; for cities
    written in ASCII this is equality up to the case of the letters a to
    z, and nothing more. *)
Theorem exact_verdict_iff (table : list Subdivision) (self : Address)
    (response : Response) :
  (outcome (_ups_address_validate toupper table self response) = Ok Exact <->
   (valid response = true /\ suggestions response = [])
   \/ Exists (confirms toupper table self) (suggestions response))
  /\
  (forall pre address post,
     suggestions response = (pre ++ address :: post)%list ->
     Forall (fun x => ~ confirms toupper table self x) pre ->
     confirms toupper table self address ->
     _ups_address_validate toupper table self response
     = {| outcome := Ok Exact;
          searched := queries self (pre ++ [address]) |})
  /\
  (forall mine address,
     upper toupper mine = upper toupper (suggestion_city address) <->
     pairwise (fun c d => toupper c = toupper d)
       mine (suggestion_city address))
  /\
  (folds_ascii toupper ->
   forall mine address,
     ascii_text mine -> ascii_text (suggestion_city address) ->
     upper toupper mine = upper toupper (suggestion_city address) <->
     pairwise same_letter mine (suggestion_city address)).
Proof.
  split; [split|split; [|split]];
    [| | |intros; apply upper_eq_pairwise
     |intros; now apply upper_eq_same_letters].
  - unfold _ups_address_validate.
    destruct (valid response) eqn:Hv; simpl.
    + destruct (suggestions response) as [|x rest] eqn:Hs; simpl.
      * intros _. left. auto.
      * intros H. right.
        destruct (iterate_Exact_inv _ _ _ _ _ H)
          as (pre & a & post & -> & _ & Ha).
        apply Exists_app. right. now constructor.
    + intros H. right.
      destruct (iterate_Exact_inv _ _ _ _ _ H)
        as (pre & a & post & -> & _ & Ha).
      apply Exists_app. right. now constructor.
  - intros [[Hv Hs] | Hex].
    + unfold _ups_address_validate. rewrite Hv, Hs. reflexivity.
    + rewrite validate_loop.
      * now apply iterate_Exists.
      * right. intros E. rewrite E in Hex. inversion Hex.
  - intros pre address post Hs Hpre Ha.
    destruct (confirms_needs _ _ _ Ha) as (c & _ & _ & Hc & _).
    rewrite validate_loop
      by (right; rewrite Hs; intros E; destruct pre; discriminate).
    rewrite Hs, (iterate_first_confirm _ _ c _ _ _ Hc Hpre Ha).
    unfold queries. rewrite Hc. reflexivity.
Qed.

(** C2. A suggestion whose pair resolves to no record or to several is
    passed over: the loop goes on with the rest, with the same list of
    matches.  A verdict other than [Exact] is the [Candidates] list built
    from all the suggestions, every one of them having been looked up; for
    an address with a country and a city the validation returns such a
    verdict whenever it does not return [Exact].  When no suggestion
    resolves the list is empty, and [Candidates []] is not [Exact]. *)
Theorem unresolvable_suggestions_are_skipped (table : list Subdivision)
    (self : Address) :
  (forall c address rest matches log,
     country self = Some c -> unresolvable table self address ->
     iterate toupper table self (address :: rest) matches log
     = iterate toupper table self rest matches (log ++ [subdivision_query c address])%list)
  /\
  (forall response v,
     outcome (_ups_address_validate toupper table self response) = Ok v ->
     v <> Exact ->
     v = Candidates (omap (candidate_of table self) (suggestions response)) /\
     searched (_ups_address_validate toupper table self response)
     = queries self (suggestions response))
  /\
  (forall response c mine,
     country self = Some c -> city self = Some mine ->
     outcome (_ups_address_validate toupper table self response) <> Ok Exact ->
     outcome (_ups_address_validate toupper table self response)
     = Ok (Candidates (omap (candidate_of table self) (suggestions response))))
  /\
  (forall response,
     valid response = false \/ suggestions response <> [] ->
     Forall (unresolvable table self) (suggestions response) ->
     outcome (_ups_address_validate toupper table self response) = Ok (Candidates []))
  /\
  Candidates [] <> Exact.
Proof.
  assert (Hpartial : forall response v,
     outcome (_ups_address_validate toupper table self response) = Ok v ->
     v <> Exact ->
     v = Candidates (omap (candidate_of table self) (suggestions response)) /\
     searched (_ups_address_validate toupper table self response)
     = queries self (suggestions response)).
  { intros response v H Hv. destruct v as [|l]; [congruence|].
    assert (Hloop : _ups_address_validate toupper table self response
                    = iterate toupper table self (suggestions response) [] []).
    { unfold _ups_address_validate in *.
      destruct (valid response && is_nil (suggestions response));
        [discriminate H | reflexivity]. }
    rewrite Hloop in *.
    destruct (iterate_Candidates_inv _ _ _ _ _ _ H) as (-> & -> & _).
    auto. }
  split; [|split; [exact Hpartial|split; [|split]]].
  - intros c address rest matches log Hc (c' & Hc' & Hlen).
    assert (c' = c) as -> by congruence.
    now apply iterate_skip.
  - intros response c mine Hc Hm Hne.
    assert (exists v, outcome (_ups_address_validate toupper table self response) = Ok v)
      as [v Hv].
    { unfold _ups_address_validate.
      destruct (valid response && is_nil (suggestions response));
        [simpl; eauto | eapply iterate_total; eassumption]. }
    rewrite Hv in *. f_equal. apply (Hpartial _ _ Hv). congruence.
  - intros response Hne Hall.
    rewrite (validate_loop _ _ _ Hne), (iterate_all_unresolvable _ _ _ Hall).
    reflexivity.
  - discriminate.
Qed.

Lemma candidate_of_Some (table : list Subdivision) (self : Address)
    (address : Suggestion) (a : Address) :
  candidate_of table self address = Some a <->
  exists sd, resolves_to table self address sd /\ a = candidate self address sd.
Proof.
  unfold candidate_of, resolves_to, subdivision_query. split.
  - destruct (country self) as [c|]; [|discriminate].
    destruct (Subdivision_search table _) as [|sd [|sd' l]] eqn:E;
      try discriminate.
    intros [= <-]. exists sd. split; [exists c; auto | reflexivity].
  - intros (sd & (c & -> & ->) & ->). reflexivity.
Qed.

(** C3. The candidate made from a suggestion has the address's name, two
    street lines, country and postal code, the suggestion's city and the
    resolved subdivision record, and nothing else.  Each suggestion that
    resolves and does not end the loop appends its candidate to the end of
    the list, so the [Candidates] list has one candidate per resolving
    suggestion, in the order of the response, equal candidates
    included. *)
Theorem candidates_follow_suggestions (table : list Subdivision)
    (self : Address) :
  (forall address sd,
     candidate self address sd
     = {| name := name self; street := street self;
          streetbis := streetbis self; city := Some (suggestion_city address);
          zip := zip self; country := country self;
          subdivision := Some sd; party := None |})
  /\
  (forall address a,
     candidate_of table self address = Some a <->
     exists sd, resolves_to table self address sd /\
                a = candidate self address sd)
  /\
  (forall c mine address sd rest matches log,
     country self = Some c -> city self = Some mine ->
     resolves_to table self address sd ->
     ~ confirms toupper table self address ->
     iterate toupper table self (address :: rest) matches log
     = iterate toupper table self rest (matches ++ [candidate self address sd])%list
         (log ++ [subdivision_query c address])%list)
  /\
  (forall response l,
     outcome (_ups_address_validate toupper table self response) = Ok (Candidates l) ->
     l = omap (candidate_of table self) (suggestions response))
  /\
  (forall c mine address sd response,
     country self = Some c -> city self = Some mine ->
     resolves_to table self address sd ->
     ~ confirms toupper table self address ->
     suggestions response = [address; address] ->
     outcome (_ups_address_validate toupper table self response)
     = Ok (Candidates [candidate self address sd; candidate self address sd])).
Proof.
  assert (Hstep : forall c mine address sd rest matches log,
     country self = Some c -> city self = Some mine ->
     resolves_to table self address sd ->
     ~ confirms toupper table self address ->
     iterate toupper table self (address :: rest) matches log
     = iterate toupper table self rest (matches ++ [candidate self address sd])%list
         (log ++ [subdivision_query c address])%list).
  { intros c mine address sd rest matches log Hc Hm (c' & Hc' & Hs) Hn.
    assert (c' = c) as -> by congruence.
    eapply iterate_append; eassumption. }
  split; [reflexivity|].
  split; [intros; apply candidate_of_Some|].
  split; [exact Hstep|].
  split.
  - intros response l H.
    assert (Hloop : _ups_address_validate toupper table self response
                    = iterate toupper table self (suggestions response) [] []).
    { unfold _ups_address_validate in *.
      destruct (valid response && is_nil (suggestions response));
        [discriminate H | reflexivity]. }
    rewrite Hloop in H.
    now destruct (iterate_Candidates_inv _ _ _ _ _ _ H) as (-> & _).
  - intros c mine address sd response Hc Hm Hr Hn Hs.
    rewrite validate_loop by (right; rewrite Hs; discriminate).
    rewrite Hs, !(Hstep c mine address sd) by assumption.
    rewrite iterate_nil. reflexivity.
Qed.

End Reconciliation.

#[local] Transparent iterate.

(** ** The scenarios on concrete data *)

Lemma houston_zz_unresolvable :
  unresolvable (subdivision_table env1) austin_address houston_zz.
Proof.
  exists {| country_code := "US" |}. split; [reflexivity|].
  vm_compute. discriminate.
Qed.

Lemma dover_dd_unresolvable :
  unresolvable (subdivision_table env1) austin_address dover_dd.
Proof.
  exists {| country_code := "US" |}. split; [reflexivity|].
  vm_compute. discriminate.
Qed.

Lemma austin_tx_confirms :
  confirms upper_char (subdivision_table env1) austin_address austin_tx.
Proof.
  exists {| sub_id := 7; sub_code := "US-TX" |}, "austin",
         {| sub_id := 7; sub_code := "US-TX" |}.
  repeat split; try reflexivity.
  exists {| country_code := "US" |}. split; reflexivity.
Qed.

Lemma dallas_tx_resolves :
  resolves_to (subdivision_table env1) austin_address dallas_tx
    {| sub_id := 7; sub_code := "US-TX" |}.
Proof. exists {| country_code := "US" |}. split; reflexivity. Qed.

Lemma dallas_tx_differs :
  ~ confirms upper_char (subdivision_table env1) austin_address dallas_tx.
Proof.
  intros (sd & mine & m & _ & Hm & Hu & _).
  injection Hm as <-. vm_compute in Hu. discriminate.
Qed.

Lemma exact_verdict_iff_witness :
  _ups_address_validate upper_char (subdivision_table env1) austin_address
    {| valid := false; suggestions := [houston_zz; austin_tx; dallas_tx] |}
  = {| outcome := Ok Exact; searched := ["US-ZZ"; "US-TX"] |}
  /\
  upper upper_char "austin" = upper upper_char (suggestion_city austin_tx)
  /\
  upper upper_char "austin" <> upper upper_char (suggestion_city dallas_tx).
Proof.
  destruct (exact_verdict_iff upper_char (subdivision_table env1)
              austin_address
              {| valid := false;
                 suggestions := [houston_zz; austin_tx; dallas_tx] |})
    as (_ & Hfirst & _ & Hcase).
  split; [|split].
  - apply (Hfirst [houston_zz] austin_tx [dallas_tx] eq_refl).
    + constructor; [|constructor].
      apply unresolvable_not_confirms, houston_zz_unresolvable.
    + exact austin_tx_confirms.
  - apply (Hcase upper_char_folds_ascii "austin" austin_tx).
    + vm_compute; repeat split; lia.
    + vm_compute; repeat split; lia.
    + cbn. unfold same_letter.
      repeat split;
        first [ left; reflexivity | right; right; vm_compute; lia ].
  - intros H.
    apply (Hcase upper_char_folds_ascii "austin" dallas_tx) in H.
    + cbn in H. unfold same_letter in H. vm_compute in H.
      destruct H as [[H | [H | H]] _]; [discriminate H | lia | lia].
    + vm_compute; repeat split; lia.
    + vm_compute; repeat split; lia.
Defined.

Lemma unresolvable_suggestions_are_skipped_witness :
  outcome (_ups_address_validate upper_char (subdivision_table env1) austin_address
             {| valid := false; suggestions := [houston_zz] |})
  = Ok (Candidates [])
  /\
  outcome (_ups_address_validate upper_char (subdivision_table env1) austin_address
             {| valid := true;
                suggestions := [houston_zz; dallas_tx; dover_dd] |})
  = Ok (Candidates
          [ {| name := Some "Jo"; street := Some "1 Main St";
               streetbis := None; city := Some "Dallas"; zip := Some "73301";
               country := Some {| country_code := "US" |};
               subdivision := Some {| sub_id := 7; sub_code := "US-TX" |};
               party := None |} ]).
Proof.
  destruct (unresolvable_suggestions_are_skipped upper_char (subdivision_table env1)
              austin_address) as (_ & _ & Hret & Hempty & _).
  split.
  - apply Hempty; [left; reflexivity|].
    constructor; [exact houston_zz_unresolvable | constructor].
  - apply (Hret {| valid := true;
                   suggestions := [houston_zz; dallas_tx; dover_dd] |}
             {| country_code := "US" |} "austin" eq_refl eq_refl).
    vm_compute. discriminate.
Defined.

Lemma candidates_follow_suggestions_witness :
  outcome (_ups_address_validate upper_char (subdivision_table env1) austin_address
             {| valid := false; suggestions := [dallas_tx; dallas_tx] |})
  = Ok (Candidates
          [ candidate austin_address dallas_tx
              {| sub_id := 7; sub_code := "US-TX" |};
            candidate austin_address dallas_tx
              {| sub_id := 7; sub_code := "US-TX" |} ]).
Proof.
  destruct (candidates_follow_suggestions upper_char (subdivision_table env1)
              austin_address) as (_ & _ & _ & _ & Hdup).
  apply (Hdup {| country_code := "US" |} "austin" dallas_tx
           {| sub_id := 7; sub_code := "US-TX" |}
           {| valid := false; suggestions := [dallas_tx; dallas_tx] |}
           eq_refl eq_refl dallas_tx_resolves dallas_tx_differs eq_refl).
Defined.

Lemma required_field_check_witness :
  _get_ups_address_xml blank_address
    = Raise (UserError "Street, City and Country are required.")
  /\ _get_ups_address_xml (us_without_state (Some "73301"))
    = Raise (UserError "State is required for US")
  /\ _get_ups_address_xml (us_without_state None)
    = Raise (UserError "State is required for US")
  /\ _get_ups_address_xml us_without_zip
    = Raise (UserError "ZIP is required for US")
  /\ succeeds (_get_ups_address_xml bare_address) = true.
Proof.
  split; [|split; [|split; [|split]]].
  - apply (proj1 (required_field_check blank_address)). left. reflexivity.
  - apply (proj1 (proj2 (required_field_check (us_without_state (Some "73301")))
                    us eq_refl eq_refl eq_refl));
      [left; reflexivity | reflexivity].
  - apply (proj1 (proj2 (required_field_check (us_without_state None))
                    us eq_refl eq_refl eq_refl));
      [left; reflexivity | reflexivity].
  - apply (proj1 (proj2 (proj2 (required_field_check us_without_zip)
                           us eq_refl eq_refl eq_refl)));
      [left; reflexivity | discriminate | reflexivity].
  - apply (proj2 (proj2 (proj2 (required_field_check bare_address)
                           fr eq_refl eq_refl eq_refl))).
    simpl. intros [H|[H|[H|[]]]]; discriminate.
Defined.

Lemma rest_payload_truncates_witness :
  exists vals,
    _get_ups_address_xml long_address = Ok vals /\
    vals !! "AddressLine1" = Some (PyStr "1234 Long Winding Boulevard North, ") /\
    vals !! "City" = Some (PyStr "Saint Bartholomew upon the Lon") /\
    String.length (slice_to 35 street40) = 35%nat /\
    String.length (slice_to 30 city50) = 30%nat.
Proof.
  destruct (_get_ups_address_xml long_address) as [vals|] eqn:Hv;
    [|discriminate Hv].
  destruct (proj1 (rest_payload_truncates long_address) vals Hv)
    as (s & c & Hs & Hc & Hl1 & Hci & Hlen1 & Hlen2 & _).
  injection Hs as <-. injection Hc as <-.
  exists vals. repeat split; assumption.
Defined.

(** The three scenarios of the specification. *)
Example austin_is_exact :
  outcome (_ups_address_validate upper_char (subdivision_table env1) austin_address
             {| valid := false; suggestions := [austin_tx] |})
  = Ok Exact.
Proof. reflexivity. Qed.

Example houston_gives_no_candidate :
  _ups_address_validate upper_char (subdivision_table env1) austin_address
    {| valid := false; suggestions := [houston_zz] |}
  = {| outcome := Ok (Candidates []); searched := ["US-ZZ"] |}.
Proof. reflexivity. Qed.

Example valid_without_suggestion_is_exact :
  _ups_address_validate upper_char (subdivision_table env1) austin_address
    {| valid := true; suggestions := [] |}
  = {| outcome := Ok Exact; searched := [] |}.
Proof. reflexivity. Qed.

(** Without a city or a country on the address the loop does not return
    a verdict: it raises on the first suggestion it has to compare or to
    look up. *)
Example address_without_city_raises :
  outcome (_ups_address_validate upper_char (subdivision_table env1) nowhere_address
             {| valid := false; suggestions := [dallas_tx] |})
  = Raise AttributeError
  /\
  outcome (_ups_address_validate upper_char (subdivision_table env1) blank_address
             {| valid := false; suggestions := [dallas_tx] |})
  = Raise AttributeError.
Proof. split; reflexivity. Qed.

(** ** Splitting the subdivision code *)

Lemma append_cons (c : ascii) (a b : string) :
  String c a +:+ b = String c (a +:+ b).
Proof. reflexivity. Qed.

Lemma split_not_nil (sep : ascii) (s : string) : split sep s <> [].
Proof.
  induction s as [|c s IH]; simpl; [discriminate|].
  destruct (Ascii.eqb c sep); [discriminate|].
  destruct (split sep s); [congruence | discriminate].
Qed.

(** A string without the separator is not cut. *)
Lemma split_without (sep : ascii) (s : string) :
  contains sep s = false -> split sep s = [s].
Proof.
  induction s as [|c s IH]; simpl; [reflexivity|].
  destruct (Ascii.eqb c sep); simpl; [discriminate|].
  intros H. rewrite (IH H). reflexivity.
Qed.

(** The first piece ends at the first separator. *)
Lemma split_at_first (sep : ascii) (a b : string) :
  contains sep a = false ->
  split sep (a +:+ String sep b) = a :: split sep b.
Proof.
  induction a as [|c a IH]; intros H.
  - change (EmptyString +:+ String sep b) with (String sep b).
    simpl. rewrite Ascii.eqb_refl. reflexivity.
  - simpl in H. rewrite append_cons. simpl.
    destruct (Ascii.eqb c sep); simpl in H; [discriminate|].
    rewrite (IH H). reflexivity.
Qed.

(** There is a second piece exactly when the separator occurs. *)
Lemma split_second (sep : ascii) (s : string) :
  split sep s !! 1%nat = None <-> contains sep s = false.
Proof.
  induction s as [|c s IH]; simpl; [split; reflexivity|].
  destruct (Ascii.eqb c sep); simpl.
  - split; [|discriminate].
    destruct (split sep s) eqn:E; [|discriminate].
    now destruct (split_not_nil sep s).
  - destruct (split sep s) as [|w ws] eqn:E.
    + now destruct (split_not_nil sep s).
    + exact IH.
Qed.

(** ** The request sent to the carrier *)

(** X1. [fulfil_shipping_obj] fails, with [IndexError], exactly when the
    address has a subdivision whose code contains no dash.  When it
    returns, name, street, city and postal code are passed as they are
    (the street and the city in full), the country is its code or [None],
    and the state is [None] for an address without subdivision. *)
Theorem fulfil_shipping_obj_fails_iff (self : Address) :
  (fulfil_shipping_obj self = Failed IndexError <->
   exists sd, subdivision self = Some sd /\ contains dash (sub_code sd) = false)
  /\
  (forall f, fulfil_shipping_obj self = Failed f -> f = IndexError)
  /\
  (forall request, fulfil_shipping_obj self = Returned request ->
     fulfil_shipping.name request = name self /\
     fulfil_shipping.street1 request = street self /\
     fulfil_shipping.city request = city self /\
     fulfil_shipping.zip request = zip self /\
     fulfil_shipping.country request = country_code <$> country self /\
     (subdivision self = None -> fulfil_shipping.state request = None) /\
     (forall sd, subdivision self = Some sd ->
        fulfil_shipping.state request = split dash (sub_code sd) !! 1%nat /\
        contains dash (sub_code sd) = true)).
Proof.
  unfold fulfil_shipping_obj.
  destruct (subdivision self) as [sd|] eqn:Hsd.
  - destruct (split dash (sub_code sd) !! 1%nat) as [region|] eqn:E.
    + assert (Hc : contains dash (sub_code sd) = true).
      { destruct (contains dash (sub_code sd)) eqn:C; [reflexivity|].
        apply split_second in C. congruence. }
      split; [split|split].
      * discriminate.
      * intros (sd' & [= <-] & C). congruence.
      * discriminate.
      * intros request [= <-]. simpl.
        do 5 (split; [reflexivity|]).
        split; [discriminate|].
        intros sd' [= <-]. split; [symmetry; exact E | exact Hc].
    + split; [split|split].
      * intros _. exists sd. split; [reflexivity|]. now apply split_second.
      * reflexivity.
      * intros f [= <-]. reflexivity.
      * discriminate.
  - split; [split|split].
    + discriminate.
    + intros (sd & H & _). discriminate.
    + discriminate.
    + intros request [= <-]. simpl.
      do 5 (split; [reflexivity|]).
      split; [reflexivity | discriminate].
Qed.

Lemma fulfil_shipping_obj_fails_iff_witness :
  fulfil_shipping_obj undashed_address = Failed IndexError.
Proof.
  apply (proj1 (fulfil_shipping_obj_fails_iff undashed_address)).
  exists {| sub_id := 11; sub_code := "TEXAS" |}. split; reflexivity.
Defined.

(** X2. For a subdivision code made of a two-character country part, a
    dash and a region without dash, the state sent to the carrier for
    validation (the second piece of the code cut at dashes) is the region,
    and it is the state the shipping payloads carry (the code without its
    first three characters). *)
Theorem validation_state_is_shipping_state (self : Address)
    (sd : Subdivision) (a b : ascii) (region : string) :
  subdivision self = Some sd ->
  sub_code sd = String a (String b (String dash region)) ->
  Ascii.eqb a dash = false -> Ascii.eqb b dash = false ->
  contains dash region = false ->
  exists request,
    fulfil_shipping_obj self = Returned request /\
    fulfil_shipping.state request = Some region /\
    slice_from 3 (sub_code sd) = region.
Proof.
  intros Hsd Hcode Ha Hb Hr.
  assert (E : split dash (sub_code sd) !! 1%nat = Some region).
  { rewrite Hcode.
    change (String a (String b (String dash region)))
      with (String a (String b EmptyString) +:+ String dash region).
    rewrite split_at_first by (simpl; rewrite Ha, Hb; reflexivity).
    rewrite (split_without _ _ Hr). reflexivity. }
  unfold fulfil_shipping_obj. rewrite Hsd, E.
  eexists. split; [reflexivity|]. split; [reflexivity|].
  rewrite Hcode. reflexivity.
Qed.

Lemma validation_state_is_shipping_state_witness :
  exists request,
    fulfil_shipping_obj austin_address = Returned request /\
    fulfil_shipping.state request = Some "TX" /\
    slice_from 3 "US-TX" = "TX".
Proof.
  apply (validation_state_is_shipping_state austin_address
           {| sub_id := 7; sub_code := "US-TX" |} "U" "S" "TX");
    reflexivity.
Defined.

(** X3. When the carrier sends back, among its suggestions, the state
    and the city it was sent (the city in any letter case), and the
    address's subdivision is the only record of the table under its code,
    the verdict is [Exact], whatever the [valid] flag says. *)
Theorem echoed_request_is_exact (toupper : ascii -> ascii)
    (table : list Subdivision) (self : Address) (response : Response) (c : Country) (sd : Subdivision)
    (mine region : string) (request : fulfil_shipping.Address)
    (address : Suggestion) :
  country self = Some c -> subdivision self = Some sd ->
  city self = Some mine ->
  sub_code sd = country_code c +:+ "-" +:+ region ->
  contains dash (country_code c) = false ->
  contains dash region = false ->
  Subdivision_search table (sub_code sd) = [sd] ->
  fulfil_shipping_obj self = Returned request ->
  In address (suggestions response) ->
  fulfil_shipping.state request = Some (suggestion_state address) ->
  upper toupper (suggestion_city address) = upper toupper mine ->
  outcome (_ups_address_validate toupper table self response) = Ok Exact.
Proof.
  intros Hc Hsd Hm Hcode Hcc Hr Hs Hreq Hin Hst Hu.
  assert (E : split dash (sub_code sd) !! 1%nat = Some region).
  { rewrite Hcode.
    change (country_code c +:+ "-" +:+ region)
      with (country_code c +:+ String dash region).
    rewrite (split_at_first _ _ _ Hcc), (split_without _ _ Hr). reflexivity. }
  unfold fulfil_shipping_obj in Hreq. rewrite Hsd, E in Hreq.
  injection Hreq as <-. simpl in Hst. injection Hst as Hst.
  assert (Hconf : confirms toupper table self address).
  { exists sd, mine, sd. repeat split; try assumption; try congruence.
    exists c. split; [assumption|]. rewrite <- Hst, <- Hcode. exact Hs. }
  rewrite validate_loop.
  - apply iterate_Exists. apply Exists_exists. exists address.
    split; [apply list_elem_of_In; exact Hin | exact Hconf].
  - right. intros E'. rewrite E' in Hin. destruct Hin.
Qed.

Lemma echoed_request_is_exact_witness :
  outcome (_ups_address_validate upper_char (subdivision_table env1) austin_address
             {| valid := false; suggestions := [houston_zz; austin_tx] |})
  = Ok Exact.
Proof.
  destruct (fulfil_shipping_obj austin_address) as [request|] eqn:Hreq;
    [|discriminate Hreq].
  apply (echoed_request_is_exact upper_char (subdivision_table env1)
           austin_address
           {| valid := false; suggestions := [houston_zz; austin_tx] |}
           {| country_code := "US" |} {| sub_id := 7; sub_code := "US-TX" |}
           "austin" "TX" request austin_tx);
    try reflexivity.
  - exact Hreq.
  - simpl. right. left. reflexivity.
  - injection Hreq as <-. reflexivity.
Defined.

(** ** When the role payloads are produced *)

Lemma get_ups_address_xml_Raise (self : Address) (e : exn) :
  _get_ups_address_xml self = Raise e ->
  e = UserError "Street, City and Country are required."
  \/ exists k, country self = Some k /\
       (e = UserError ("State is required for " +:+ country_code k)
        \/ e = UserError ("ZIP is required for " +:+ country_code k)).
Proof.
  destruct self as [n st sb ci zp co sd pa]. run_check.
  destruct st as [[|? ?]|], ci as [[|? ?]|], co as [[code]|];
    simpl; try (intros [= <-]; left; reflexivity).
  destruct (str_in code ["US"; "CA"] && negb (present sd)); simpl.
  - intros [= <-]. right. eexists. split; [reflexivity|]. left. reflexivity.
  - destruct (str_in code ["US"; "CA"; "PR"] && negb (truthy zp)); simpl.
    + intros [= <-]. right. eexists. split; [reflexivity|]. right. reflexivity.
    + discriminate.
Qed.

Lemma company_from_context_succeeds (env : Env) :
  succeeds (company_from_context env) = true <->
  exists company_id, context_company env = Some company_id /\ company_id <> 0.
Proof.
  unfold company_from_context.
  destruct (context_company env) as [z|]; simpl.
  - destruct (Z.eqb_spec z 0); simpl.
    + split; [discriminate | intros (z' & [= <-] & H); congruence].
    + split; [eauto | reflexivity].
  - split; [discriminate | intros (z' & H & _); discriminate].
Qed.

Lemma buildable_true (vals : gmap string pyval) :
  buildable vals = true <-> map_Forall (fun _ v => v <> PyNone) vals.
Proof. unfold buildable. apply bool_decide_eq_true. Qed.

Lemma to_pyval_not_None (o : option string) :
  to_pyval o <> PyNone <-> o <> None.
Proof. destruct o; simpl; split; congruence. Qed.

(** The shipper's dictionary has no [None] exactly when the company's
    name, the attention name and the shipper number are there. *)
Lemma shipper_vals_buildable (company : Party) (self : Address) (p : Party)
    (number : string) (carrier : Carrier) :
  buildable (shipper_vals company self p number carrier) = true <->
  party_name company <> None /\
  py_or (name self) (party_name p) <> None /\
  ups_shipper_no carrier <> None.
Proof.
  rewrite buildable_true. unfold shipper_vals, insert_if_truthy.
  destruct (email p) as [[|? ?]|], (fax p) as [[|? ?]|];
    rewrite !map_Forall_insert by reflexivity;
    rewrite map_Forall_singleton, !to_pyval_not_None;
    (split; [tauto | intros (? & ? & ?); repeat split; auto; discriminate]).
Qed.

(** [to_ups_shipper] once its two checks and the address check have
    passed: the builder decides. *)
Lemma to_ups_shipper_builds (env : Env) (self : Address) (carrier : Carrier)
    (p : Party) (company_id : Z) (address : gmap string pyval) :
  party self = Some p -> truthy (phone p) = true ->
  company_from_context env = Ok company_id ->
  _get_ups_address_xml self = Ok address ->
  to_ups_shipper env self carrier =
    if buildable (shipper_vals (company_party env company_id) self p
                    (or_empty (phone p)) carrier)
    then Ok (shipper_type address
               (shipper_vals (company_party env company_id) self p
                  (or_empty (phone p)) carrier))
    else Raise TypeError.
Proof.
  intros Hp Hph Hc Ha.
  unfold to_ups_shipper, getattr, raise_if, re_sub.
  rewrite Hp. simpl. rewrite Hph, Hc. simpl.
  destruct (phone p) as [[|c number]|]; try discriminate. simpl.
  rewrite Ha. unfold shipper_vals, py_or.
  destruct (truthy (name self)); reflexivity.
Qed.

(** X4. [to_ups_shipper] returns a payload exactly when the address has
    a party with a non-empty phone number, the context names a company,
    the address passes the required-field check and none of the values
    handed to the builder is [None]: the name of the company's party, the
    attention name and the carrier's shipper number are all there. *)
Theorem shipper_payload_produced_iff (env : Env) (self : Address)
    (carrier : Carrier) :
  succeeds (to_ups_shipper env self carrier) = true <->
  exists p company_id,
    party self = Some p /\ truthy (phone p) = true /\
    context_company env = Some company_id /\ company_id <> 0 /\
    required_fields_ok self = true /\
    party_name (company_party env company_id) <> None /\
    py_or (name self) (party_name p) <> None /\
    ups_shipper_no carrier <> None.
Proof.
  rewrite <- get_ups_address_xml_succeeds. split.
  - destruct (to_ups_shipper env self carrier) as [payload|] eqn:H;
      [|discriminate].
    intros _. pose proof H as H'.
    apply to_ups_shipper_Ok in H'
      as (p & number & cid & address & Hp & Hn & Hph & Hc & Ha & Hpay).
    rewrite (to_ups_shipper_builds _ _ _ _ _ _ Hp Hph Hc Ha) in H.
    destruct (buildable _) eqn:Hb in H; [|discriminate].
    apply shipper_vals_buildable in Hb as (Hb1 & Hb2 & Hb3).
    apply company_from_context_Ok in Hc as [Hc Hz].
    exists p, cid. rewrite Ha. repeat split; assumption.
  - intros (p & cid & Hp & Hph & Hc & Hz & Ha & Hb1 & Hb2 & Hb3).
    assert (Hctx : company_from_context env = Ok cid).
    { unfold company_from_context. rewrite Hc.
      destruct (Z.eqb_spec cid 0); [contradiction | reflexivity]. }
    destruct (_get_ups_address_xml self) as [address|] eqn:Hget;
      [|discriminate].
    rewrite (to_ups_shipper_builds _ _ _ _ _ _ Hp Hph Hctx Hget).
    rewrite (proj2 (shipper_vals_buildable _ _ _ _ _)) by auto.
    reflexivity.
Qed.

Lemma to_ups_shipper_Raise (env : Env) (self : Address) (carrier : Carrier)
    (p : Party) (e : exn) :
  party self = Some p ->
  to_ups_shipper env self carrier = Raise e ->
  e = UserError (ups_field_missing "Phone no." (quoted "Shipper Address"))
  \/ e = UserError (ups_field_missing "Company" "context")
  \/ _get_ups_address_xml self = Raise e
  \/ (e = TypeError /\ truthy (phone p) = true /\
      succeeds (company_from_context env) = true /\
      succeeds (_get_ups_address_xml self) = true).
Proof.
  intros Hp H.
  destruct (truthy (phone p)) eqn:Hph.
  - destruct (company_from_context env) as [cid|e'] eqn:Hc.
    + destruct (_get_ups_address_xml self) as [address|e''] eqn:Ha.
      * rewrite (to_ups_shipper_builds _ _ _ _ _ _ Hp Hph Hc Ha) in H.
        destruct (buildable _) in H; [discriminate|].
        injection H as <-. right. right. right. auto.
      * right. right. left.
        assert (E : to_ups_shipper env self carrier = Raise e'').
        { unfold to_ups_shipper, getattr, raise_if, re_sub.
          rewrite Hp. simpl. rewrite Hph, Hc. simpl.
          destruct (phone p) as [[|c number]|]; try discriminate. simpl.
          rewrite Ha. destruct (truthy (name self)); reflexivity. }
        congruence.
    + right. left.
      assert (e' = UserError (ups_field_missing "Company" "context")) as ->.
      { unfold company_from_context, raise_user_error in Hc.
        destruct (context_company env) as [z|]; [destruct (z =? 0)|];
          congruence. }
      assert (E : to_ups_shipper env self carrier
                  = Raise (UserError (ups_field_missing "Company" "context"))).
      { unfold to_ups_shipper, getattr, raise_if.
        rewrite Hp. simpl. rewrite Hph, Hc. reflexivity. }
      congruence.
  - left.
    assert (E : to_ups_shipper env self carrier
                = Raise (UserError (ups_field_missing "Phone no."
                                      (quoted "Shipper Address")))).
    { unfold to_ups_shipper, getattr, raise_if.
      rewrite Hp. simpl. rewrite Hph. reflexivity. }
    congruence.
Qed.

(** X5. [_get_ups_address_xml] fails only with one of its three user
    errors, on any address: the fields it dereferences are checked first.
    For an address with a party, [to_ups_shipper] fails with the phone
    error, the company error, the error of the required-field check, or,
    when all three checks have passed, with the builder's [TypeError];
    this last one is raised exactly when the name of the company's party,
    the attention name or the carrier's shipper number is [None]. *)
Theorem address_and_shipper_failures (env : Env) (self : Address)
    (carrier : Carrier) (e : exn) :
  (_get_ups_address_xml self = Raise e ->
   In e [ UserError "Street, City and Country are required.";
          UserError ("State is required for "
                     +:+ or_empty (country_code <$> country self));
          UserError ("ZIP is required for "
                     +:+ or_empty (country_code <$> country self)) ])
  /\
  (forall p, party self = Some p ->
     to_ups_shipper env self carrier = Raise e ->
     e = UserError (ups_field_missing "Phone no." (quoted "Shipper Address"))
     \/ e = UserError "Company is missing in context."
     \/ _get_ups_address_xml self = Raise e
     \/ e = TypeError)
  /\
  (forall p company_id,
     party self = Some p -> truthy (phone p) = true ->
     context_company env = Some company_id -> company_id <> 0 ->
     required_fields_ok self = true ->
     (to_ups_shipper env self carrier = Raise TypeError <->
      party_name (company_party env company_id) = None
      \/ py_or (name self) (party_name p) = None
      \/ ups_shipper_no carrier = None)).
Proof.
  split; [|split].
  - intros H.
    apply get_ups_address_xml_Raise in H as [-> | (k & Hk & [-> | ->])].
    + left. reflexivity.
    + right. left. rewrite Hk. simpl.
      destruct (country_code k); reflexivity.
    + right. right. left. rewrite Hk. simpl.
      destruct (country_code k); reflexivity.
  - intros p Hp H.
    apply (to_ups_shipper_Raise _ _ _ _ _ Hp) in H
      as [-> | [-> | [H | (-> & _)]]]; tauto.
  - intros p cid Hp Hph Hc Hz Ha.
    assert (Hctx : company_from_context env = Ok cid).
    { unfold company_from_context. rewrite Hc.
      destruct (Z.eqb_spec cid 0); [contradiction | reflexivity]. }
    rewrite <- get_ups_address_xml_succeeds in Ha.
    destruct (_get_ups_address_xml self) as [address|] eqn:Hget;
      [|discriminate].
    rewrite (to_ups_shipper_builds _ _ _ _ _ _ Hp Hph Hctx Hget).
    pose proof (shipper_vals_buildable (company_party env cid) self p
                  (or_empty (phone p)) carrier) as Hb.
    destruct (buildable _) eqn:E.
    + split; [discriminate|].
      destruct (proj1 Hb eq_refl) as (H1 & H2 & H3). tauto.
    + split; [|reflexivity]. intros _.
      destruct (party_name (company_party env cid)) eqn:E1; [|tauto].
      destruct (py_or (name self) (party_name p)) eqn:E2; [|tauto].
      destruct (ups_shipper_no carrier) eqn:E3; [|tauto].
      assert (false = true); [|discriminate].
      apply Hb. repeat split; discriminate.
Qed.

Lemma address_and_shipper_failures_witness :
  to_ups_shipper env1 long_address {| ups_shipper_no := None |}
  = Raise TypeError.
Proof.
  apply (proj2 (proj2 (address_and_shipper_failures env1 long_address
                         {| ups_shipper_no := None |} TypeError))
           acme 1 eq_refl eq_refl eq_refl).
  - discriminate.
  - reflexivity.
  - right. right. reflexivity.
Defined.

(** X6. The desktop mapper has no required-field check: it returns a
    payload exactly when the context names a company and the address has
    a party whose phone is not [None], whatever the street, city, country,
    postal code and subdivision are.  Without a company it fails with
    "Company is missing in context." before anything else; with a company
    and a party whose phone is [None] it fails with [TypeError]; an empty
    phone gives an empty [Telephone]. *)
Theorem worldship_has_no_required_field_check (env : Env) (self : Address) :
  (succeeds (to_worldship_address env self) = true <->
   (exists company_id,
      context_company env = Some company_id /\ company_id <> 0) /\
   exists p number, party self = Some p /\ phone p = Some number)
  /\
  (context_company env = None \/ context_company env = Some 0 ->
   to_worldship_address env self
   = Raise (UserError "Company is missing in context."))
  /\
  (forall p, succeeds (company_from_context env) = true ->
     party self = Some p -> phone p = None ->
     to_worldship_address env self = Raise TypeError)
  /\
  (forall p vals, party self = Some p -> phone p = Some EmptyString ->
     to_worldship_address env self = Ok vals ->
     vals !! "Telephone" = Some (PyStr EmptyString)).
Proof.
  split; [split|split; [|split]].
  - destruct (to_worldship_address env self) as [vals|] eqn:H; [|discriminate].
    intros _. apply to_worldship_address_Ok in H
      as (cid & p & number & Hc & Hp & Hn & _).
    split; [exists cid; now apply company_from_context_Ok | eauto].
  - intros (Hc & p & number & Hp & Hn).
    apply company_from_context_succeeds in Hc.
    unfold to_worldship_address, getattr, re_sub.
    destruct (company_from_context env); [|discriminate]. simpl.
    rewrite Hp. destruct (truthy (name self)); simpl; rewrite Hn; reflexivity.
  - intros H. unfold to_worldship_address.
    rewrite (company_from_context_missing _ H). reflexivity.
  - intros p Hc Hp Hn. unfold to_worldship_address, getattr, re_sub.
    destruct (company_from_context env); [|discriminate]. simpl.
    rewrite Hp. destruct (truthy (name self)); simpl; rewrite Hn; reflexivity.
  - intros p vals Hp Hn H. apply to_worldship_address_Ok in H
      as (cid & p' & number & _ & Hp' & Hn' & ->).
    assert (p' = p) as -> by congruence.
    assert (number = EmptyString) as -> by congruence.
    reflexivity.
Qed.

Lemma worldship_has_no_required_field_check_witness :
  to_worldship_address env_without_company long_address
  = Raise (UserError "Company is missing in context.")
  /\
  to_worldship_address env1 mute_address = Raise TypeError.
Proof.
  destruct (worldship_has_no_required_field_check env_without_company
              long_address) as (_ & Hmissing & _).
  destruct (worldship_has_no_required_field_check env1 mute_address)
    as (_ & _ & Hnone & _).
  split.
  - apply Hmissing. left. reflexivity.
  - apply (Hnone mute_party); reflexivity.
Defined.

(** ** Contact fields *)

Lemma digits_only_re_sub_digits (s : string) :
  forallb is_digit (list_ascii_of_string (digits_only_re_sub s)) = true.
Proof.
  induction s as [|c s IH]; simpl; [reflexivity|].
  destruct (is_digit c) eqn:E; simpl; [rewrite E|]; exact IH.
Qed.

Lemma digits_only_re_sub_fixed (s : string) :
  forallb is_digit (list_ascii_of_string s) = true ->
  digits_only_re_sub s = s.
Proof.
  induction s as [|c s IH]; simpl; [reflexivity|].
  destruct (is_digit c); simpl; [|discriminate].
  intros H. rewrite (IH H). reflexivity.
Qed.

Lemma digits_only_re_sub_none (s : string) :
  existsb is_digit (list_ascii_of_string s) = false ->
  digits_only_re_sub s = EmptyString.
Proof.
  induction s as [|c s IH]; simpl; [reflexivity|].
  destruct (is_digit c); simpl; [discriminate | exact IH].
Qed.

Lemma from_vals_phone (company : Party) (self : Address) (p : Party)
    (number : string) :
  from_vals company self p number !! "PhoneNumber"
  = Some (PyStr (digits_only_re_sub number)).
Proof.
  unfold from_vals. rewrite !lookup_insert_if_truthy. reflexivity.
Qed.

Lemma shipper_vals_phone (company : Party) (self : Address) (p : Party)
    (number : string) (carrier : Carrier) :
  shipper_vals company self p number carrier !! "PhoneNumber"
  = Some (PyStr (digits_only_re_sub number)).
Proof.
  unfold shipper_vals. rewrite !lookup_insert_if_truthy. reflexivity.
Qed.

(** X7. A ship-from or shipper payload always has a [PhoneNumber]: the
    digits of the party's phone, which is unchanged by a second stripping.
    The phone check looks at the phone as entered, not at its digits: a
    non-empty phone without any digit passes it and gives an empty
    [PhoneNumber]. *)
Theorem phone_number_is_checked_before_stripping (env : Env) (self : Address)
    (carrier : Carrier) (payload : Payload) :
  to_ups_from_address env self = Ok payload
  \/ to_ups_shipper env self carrier = Ok payload ->
  exists p number digits,
    party self = Some p /\ phone p = Some number /\
    number <> EmptyString /\
    payload_vals payload !! "PhoneNumber" = Some (PyStr digits) /\
    digits = digits_only_re_sub number /\
    forallb is_digit (list_ascii_of_string digits) = true /\
    digits_only_re_sub digits = digits /\
    (existsb is_digit (list_ascii_of_string number) = false ->
     digits = EmptyString).
Proof.
  intros [H|H].
  - apply to_ups_from_address_Ok in H
      as (p & number & cid & address & Hp & Hn & Ht & _ & _ & ->).
    exists p, number, (digits_only_re_sub number).
    rewrite Hn in Ht. simpl. rewrite from_vals_phone.
    repeat split; try assumption.
    + intros ->. discriminate.
    + apply digits_only_re_sub_digits.
    + apply digits_only_re_sub_fixed, digits_only_re_sub_digits.
    + apply digits_only_re_sub_none.
  - apply to_ups_shipper_Ok in H
      as (p & number & cid & address & Hp & Hn & Ht & _ & _ & ->).
    exists p, number, (digits_only_re_sub number).
    rewrite Hn in Ht. simpl. rewrite shipper_vals_phone.
    repeat split; try assumption.
    + intros ->. discriminate.
    + apply digits_only_re_sub_digits.
    + apply digits_only_re_sub_fixed, digits_only_re_sub_digits.
    + apply digits_only_re_sub_none.
Qed.

Lemma phone_number_is_checked_before_stripping_witness :
  exists payload,
    to_ups_from_address env1 chatty_address = Ok payload /\
    payload_vals payload !! "PhoneNumber" = Some (PyStr EmptyString).
Proof.
  destruct (to_ups_from_address env1 chatty_address) as [payload|] eqn:H;
    [|discriminate H].
  destruct (phone_number_is_checked_before_stripping env1 chatty_address
              {| ups_shipper_no := None |} payload (or_introl H))
    as (p & number & digits & Hp & Hn & _ & Hl & _ & _ & _ & Hnone).
  injection Hp as <-. injection Hn as <-.
  exists payload. split; [reflexivity|].
  rewrite Hl, (Hnone eq_refl). reflexivity.
Defined.

(** X8. In the three REST-style role payloads the fax number and the
    e-mail address are there exactly when the party's value is not empty,
    and they are the party's value as it is: unlike the phone number, the
    fax number keeps its non-digit characters. *)
Theorem fax_and_email_are_verbatim (env : Env) (self : Address)
    (carrier : Carrier) (payload : Payload) (p : Party) :
  party self = Some p ->
  to_ups_from_address env self = Ok payload
  \/ to_ups_to_address self = Ok payload
  \/ to_ups_shipper env self carrier = Ok payload ->
  payload_vals payload !! "FaxNumber"
  = (if truthy (fax p) then PyStr <$> fax p else None)
  /\
  payload_vals payload !! "EMailAddress"
  = (if truthy (email p) then PyStr <$> email p else None).
Proof.
  intros Hp [H|[H|H]].
  - apply to_ups_from_address_Ok in H
      as (p' & number & cid & address & Hp' & _ & _ & _ & _ & ->).
    assert (p' = p) as -> by congruence.
    simpl. unfold from_vals. rewrite !lookup_insert_if_truthy. simpl.
    destruct (fax p) as [[|? ?]|], (email p) as [[|? ?]|]; split; reflexivity.
  - apply to_ups_to_address_Ok in H as (p' & address & Hp' & _ & ->).
    assert (p' = p) as -> by congruence.
    simpl. unfold to_vals. rewrite !lookup_insert_if_truthy. simpl.
    destruct (fax p) as [[|? ?]|], (email p) as [[|? ?]|],
      (phone p) as [[|? ?]|]; split; reflexivity.
  - apply to_ups_shipper_Ok in H
      as (p' & number & cid & address & Hp' & _ & _ & _ & _ & ->).
    assert (p' = p) as -> by congruence.
    simpl. unfold shipper_vals. rewrite !lookup_insert_if_truthy. simpl.
    destruct (fax p) as [[|? ?]|], (email p) as [[|? ?]|]; split; reflexivity.
Qed.

Lemma fax_and_email_are_verbatim_witness :
  exists payload,
    to_ups_to_address chatty_address = Ok payload /\
    payload_vals payload !! "FaxNumber" = Some (PyStr "+1 (512) 555-0199") /\
    payload_vals payload !! "EMailAddress" = Some (PyStr "marie@example.com").
Proof.
  destruct (to_ups_to_address chatty_address) as [payload|] eqn:H;
    [|discriminate H].
  exists payload. split; [reflexivity|].
  exact (fax_and_email_are_verbatim env1 chatty_address
           {| ups_shipper_no := None |} payload chatty_party eq_refl
           (or_intror (or_introl H))).
Defined.

(** ** The REST-style address payload as a whole *)

(** The dictionary a successful [_get_ups_address_xml] returns. *)
Lemma get_ups_address_xml_vals (self : Address) (vals : gmap string pyval) :
  _get_ups_address_xml self = Ok vals ->
  exists s c k,
    street self = Some s /\ city self = Some c /\ country self = Some k /\
    truthy (street self) = true /\ truthy (city self) = true /\
    vals =
      insert_if_truthy "PostalCode" (zip self) id
        (match subdivision self with
         | Some sd =>
             <["StateProvinceCode" := PyStr (slice_from 3 (sub_code sd))]>
         | None => id
         end
           (insert_if_truthy "AddressLine2" (streetbis self) (slice_to 35)
              {[ "AddressLine1" := PyStr (slice_to 35 s);
                 "City" := PyStr (slice_to 30 c);
                 "CountryCode" := PyStr (country_code k) ]})).
Proof.
  destruct self as [n st sb ci zp co sd pa]. run_check.
  destruct st as [[|? ?]|], ci as [[|? ?]|], co as [[code]|];
    simpl; try discriminate.
  destruct (str_in code ["US"; "CA"] && negb (present sd)); simpl;
    [discriminate|].
  destruct (str_in code ["US"; "CA"; "PR"] && negb (truthy zp)); simpl;
    [discriminate|].
  intros [= <-]. do 3 eexists. repeat (split; [reflexivity|]).
  destruct sd; reflexivity.
Qed.

(** X9. A REST-style address payload has the keys [AddressLine1], [City]
    and [CountryCode], and besides them [AddressLine2] exactly when the
    second street line is not empty, [StateProvinceCode] exactly when the
    address has a subdivision and [PostalCode] exactly when the postal
    code is not empty; it has no other key, and no key holds [None]. *)
Theorem rest_address_payload_keys (self : Address) (vals : gmap string pyval) :
  _get_ups_address_xml self = Ok vals ->
  dom vals
  = {[ "AddressLine1"; "City"; "CountryCode" ]}
    ∪ (if truthy (streetbis self) then {[ "AddressLine2" ]} else ∅)
    ∪ (if present (subdivision self) then {[ "StateProvinceCode" ]} else ∅)
    ∪ (if truthy (zip self) then {[ "PostalCode" ]} else ∅)
  /\
  map_Forall (fun _ v => v <> PyNone) vals.
Proof.
  intros H.
  destruct (get_ups_address_xml_vals _ _ H)
    as (s & c & k & _ & _ & _ & _ & _ & ->).
  split.
  - destruct (streetbis self) as [[|? ?]|], (subdivision self) as [sd|],
      (zip self) as [[|? ?]|]; simpl;
      rewrite ?dom_insert_L, dom_singleton_L; set_solver.
  - assert (Hbase : map_Forall (fun (_ : string) v => v <> PyNone)
                      ({[ "AddressLine1" := PyStr (slice_to 35 s);
                          "City" := PyStr (slice_to 30 c);
                          "CountryCode" := PyStr (country_code k) ]}
                       : gmap string pyval)).
    { repeat apply map_Forall_insert_2; discriminate. }
    destruct (streetbis self) as [[|? ?]|], (subdivision self) as [sd|],
      (zip self) as [[|? ?]|]; simpl;
      repeat apply map_Forall_insert_2; try discriminate; exact Hbase.
Qed.

Lemma rest_address_payload_keys_witness :
  exists vals,
    _get_ups_address_xml bare_address = Ok vals /\
    dom vals = {[ "AddressLine1"; "City"; "CountryCode" ]}.
Proof.
  destruct (_get_ups_address_xml bare_address) as [vals|] eqn:H;
    [|discriminate H].
  exists vals. split; [reflexivity|].
  rewrite (proj1 (rest_address_payload_keys bare_address vals H)).
  simpl. set_solver.
Defined.

(** X10. A REST-style address payload for the United States or Canada
    always has a state and a postal code, and one for Puerto Rico always
    has a postal code. *)
Theorem us_and_ca_payloads_are_complete (self : Address)
    (vals : gmap string pyval) (k : Country) :
  _get_ups_address_xml self = Ok vals ->
  country self = Some k ->
  (country_code k = "US" \/ country_code k = "CA" ->
   is_Some (vals !! "StateProvinceCode") /\ is_Some (vals !! "PostalCode"))
  /\
  (country_code k = "PR" -> is_Some (vals !! "PostalCode")).
Proof.
  intros H Hk.
  pose proof (get_ups_address_xml_succeeds self) as Hok.
  rewrite H in Hok. simpl in Hok. symmetry in Hok.
  unfold required_fields_ok in Hok. rewrite Hk in Hok.
  apply andb_true_iff in Hok as [Hok Hzip].
  apply andb_true_iff in Hok as [_ Hstate].
  apply negb_true_iff in Hzip, Hstate.
  destruct (get_ups_address_xml_Ok _ _ H)
    as (s & c & k' & _ & _ & _ & _ & _ & _ & _ & Hst & Hpc).
  rewrite Hst, Hpc.
  assert (Hin3 : forall x, In x ["US"; "CA"; "PR"] ->
                  country_code k = x -> truthy (zip self) = true).
  { intros x Hin <-. apply str_in_true in Hin. rewrite Hin in Hzip.
    simpl in Hzip. now apply negb_false_iff in Hzip. }
  assert (Hin2 : forall x, In x ["US"; "CA"] ->
                  country_code k = x -> present (subdivision self) = true).
  { intros x Hin <-. apply str_in_true in Hin. rewrite Hin in Hstate.
    simpl in Hstate. now apply negb_false_iff in Hstate. }
  split.
  - intros Hcode.
    assert (present (subdivision self) = true /\ truthy (zip self) = true)
      as [Hp Hz].
    { destruct Hcode as [E|E]; split;
        (eapply Hin2 || eapply Hin3); try exact E; simpl; tauto. }
    rewrite Hz. destruct (subdivision self); [|discriminate]. simpl. eauto.
  - intros E. rewrite (Hin3 "PR"); [eauto | simpl; tauto | exact E].
Qed.

Lemma us_and_ca_payloads_are_complete_witness :
  exists vals,
    _get_ups_address_xml long_address = Ok vals /\
    is_Some (vals !! "StateProvinceCode") /\ is_Some (vals !! "PostalCode").
Proof.
  destruct (_get_ups_address_xml long_address) as [vals|] eqn:H;
    [|discriminate H].
  exists vals. split; [reflexivity|].
  apply (proj1 (us_and_ca_payloads_are_complete long_address vals
                  {| country_code := "US" |} H eq_refl)).
  left. reflexivity.
Defined.

(** X11. In a REST-style address payload [AddressLine1] has between 1 and
    35 characters and [City] between 1 and 30; [AddressLine2], when
    there, has between 1 and 35 characters; [PostalCode], when there, is
    the postal code in full, whatever its length. *)
Theorem rest_address_payload_lengths (self : Address)
    (vals : gmap string pyval) :
  _get_ups_address_xml self = Ok vals ->
  (exists line1 town,
     vals !! "AddressLine1" = Some (PyStr line1) /\
     vals !! "City" = Some (PyStr town) /\
     (1 <= String.length line1 <= 35)%nat /\
     (1 <= String.length town <= 30)%nat)
  /\
  (forall v, vals !! "AddressLine2" = Some v ->
     exists line2, v = PyStr line2 /\ (1 <= String.length line2 <= 35)%nat)
  /\
  (forall v, vals !! "PostalCode" = Some v ->
     exists code, v = PyStr code /\ zip self = Some code /\
                  code <> EmptyString).
Proof.
  intros H.
  destruct (get_ups_address_xml_vals _ _ H)
    as (s & c & k & Hs & Hc & _ & Hts & Htc & _).
  destruct (get_ups_address_xml_Ok _ _ H)
    as (s' & c' & k' & Hs' & Hc' & _ & Hl1 & Hci & _ & Hl2 & _ & Hpc).
  assert (s' = s) as -> by congruence.
  assert (c' = c) as -> by congruence.
  rewrite Hs in Hts. rewrite Hc in Htc.
  split; [|split].
  - exists (slice_to 35 s), (slice_to 30 c).
    repeat (split; [assumption|]).
    rewrite !slice_to_length.
    destruct s as [|a s], c as [|b c]; simpl in Hts, Htc; try discriminate.
    cbn [String.length]. lia.
  - intros v. rewrite Hl2.
    destruct (streetbis self) as [[|a l]|]; simpl; try discriminate.
    intros [= <-]. eexists. split; [reflexivity|].
    rewrite slice_to_length. cbn [String.length]. lia.
  - intros v. rewrite Hpc.
    destruct (zip self) as [[|a l]|]; simpl; try discriminate.
    intros [= <-]. eexists. repeat split. discriminate.
Qed.

Lemma rest_address_payload_lengths_witness :
  exists vals line1,
    _get_ups_address_xml long_address = Ok vals /\
    vals !! "AddressLine1" = Some (PyStr line1) /\
    (1 <= String.length line1 <= 35)%nat.
Proof.
  destruct (_get_ups_address_xml long_address) as [vals|] eqn:H;
    [|discriminate H].
  destruct (proj1 (rest_address_payload_lengths long_address vals H))
    as (line1 & town & Hl & _ & Hlen & _).
  exists vals, line1. auto.
Defined.

(** ** What the reconciliation reads and returns *)

Lemma iterate_rebase (toupper : ascii -> ascii) (table : list Subdivision)
    (self other : Address)
    (todo : list Suggestion) :
  city other = city self -> country other = country self ->
  subdivision other = subdivision self ->
  forall matches log,
    iterate toupper table other todo (map (rebase other) matches) log
    = rebase_run other (iterate toupper table self todo matches log).
Proof.
  intros Hcity Hcountry Hsd.
  induction todo as [|x rest IH]; intros matches log; [reflexivity|].
  simpl. rewrite Hcountry, Hcity, Hsd.
  destruct (country self) as [c|]; [|reflexivity].
  destruct (Subdivision_search table (subdivision_query c x))
    as [|sd [|sd' l]]; try apply IH.
  destruct (city self) as [mine|]; [|reflexivity].
  destruct (String.eqb (upper toupper mine) (upper toupper (suggestion_city x))
            && subdivision_eq (subdivision self) sd); [reflexivity|].
  rewrite <- IH, map_app. reflexivity.
Qed.

(** X12. The verdict does not depend on the name, the street lines or
    the postal code of the address: two addresses with the same city,
    country and subdivision get the same searches and the same kind of
    outcome from the same response, [Exact] for both or candidates with
    the same cities and subdivisions, each carrying the copied fields of
    its own address. *)
Theorem verdict_ignores_name_street_and_zip (toupper : ascii -> ascii)
    (table : list Subdivision)
    (self other : Address) (response : Response) :
  city other = city self -> country other = country self ->
  subdivision other = subdivision self ->
  searched (_ups_address_validate toupper table other response)
  = searched (_ups_address_validate toupper table self response)
  /\
  outcome (_ups_address_validate toupper table other response)
  = match outcome (_ups_address_validate toupper table self response) with
    | Ok (Candidates l) => Ok (Candidates (map (rebase other) l))
    | Ok Exact => Ok Exact
    | Raise e => Raise e
    end.
Proof.
  intros Hcity Hcountry Hsd.
  assert (E : _ups_address_validate toupper table other response
              = rebase_run other (_ups_address_validate toupper table self response)).
  { unfold _ups_address_validate.
    destruct (valid response && is_nil (suggestions response));
      [reflexivity|].
    apply (iterate_rebase toupper table self other _ Hcity Hcountry Hsd []). }
  rewrite E. split; reflexivity.
Qed.

Lemma verdict_ignores_name_street_and_zip_witness :
  outcome (_ups_address_validate upper_char (subdivision_table env1) other_street_address
             {| valid := true; suggestions := [dallas_tx] |})
  = Ok (Candidates
          [ {| name := Some "Sam"; street := Some "99 Elm Ave";
               streetbis := Some "Rear"; city := Some "Dallas"; zip := None;
               country := Some {| country_code := "US" |};
               subdivision := Some {| sub_id := 7; sub_code := "US-TX" |};
               party := None |} ]).
Proof.
  exact (proj2 (verdict_ignores_name_street_and_zip upper_char
                  (subdivision_table env1)
                  austin_address other_street_address
                  {| valid := true; suggestions := [dallas_tx] |}
                  eq_refl eq_refl eq_refl)).
Defined.

Lemma iterate_searched_prefix (toupper : ascii -> ascii)
    (table : list Subdivision) (self : Address)
    (todo : list Suggestion) :
  forall matches log,
    exists done,
      searched (iterate toupper table self todo matches log) = (log ++ done)%list /\
      done `prefix_of` queries self todo.
Proof.
  induction todo as [|x rest IH]; intros matches log.
  - exists []. simpl. rewrite app_nil_r. split; [reflexivity|].
    apply prefix_nil.
  - simpl. destruct (country self) as [c|] eqn:Hc.
    + rewrite (queries_cons _ _ _ _ Hc).
      assert (Hstop : exists done : list string,
                (log ++ [subdivision_query c x])%list = (log ++ done)%list /\
                done `prefix_of` subdivision_query c x :: queries self rest).
      { exists [subdivision_query c x]. split; [reflexivity|].
        exists (queries self rest). reflexivity. }
      assert (Hgo : forall matches',
                exists done : list string,
                  searched (iterate toupper table self rest matches'
                              (log ++ [subdivision_query c x])%list)
                  = (log ++ done)%list /\
                  done `prefix_of` subdivision_query c x :: queries self rest).
      { intros matches'.
        destruct (IH matches' (log ++ [subdivision_query c x])%list)
          as (done & -> & Hpre).
        exists (subdivision_query c x :: done).
        rewrite <- app_assoc. split; [reflexivity|].
        now apply prefix_cons. }
      destruct (Subdivision_search table (subdivision_query c x))
        as [|sd [|sd' l]]; try apply Hgo.
      destruct (city self) as [mine|]; [|exact Hstop].
      destruct (String.eqb (upper toupper mine) (upper toupper (suggestion_city x))
                && subdivision_eq (subdivision self) sd);
        [exact Hstop | apply Hgo].
    + exists []. simpl. rewrite app_nil_r. split; [reflexivity|].
      apply prefix_nil.
Qed.

(** X13. Whatever the outcome, an error included, the validation searches
    the subdivision table once per suggestion it reaches, in the order of
    the response: the codes searched are a prefix of the codes of the
    suggestions, so there are never more searches than suggestions. *)
Theorem searches_follow_the_suggestions (toupper : ascii -> ascii)
    (table : list Subdivision)
    (self : Address) (response : Response) :
  searched (_ups_address_validate toupper table self response)
    `prefix_of` queries self (suggestions response)
  /\
  (length (searched (_ups_address_validate toupper table self response))
   <= length (suggestions response))%nat.
Proof.
  assert (Hpre : searched (_ups_address_validate toupper table self response)
                   `prefix_of` queries self (suggestions response)).
  { unfold _ups_address_validate.
    destruct (valid response && is_nil (suggestions response)).
    - apply prefix_nil.
    - destruct (iterate_searched_prefix toupper table self
                  (suggestions response) [] [])
        as (done & -> & Hpre). exact Hpre. }
  split; [exact Hpre|].
  apply prefix_length in Hpre.
  unfold queries in Hpre. destruct (country self).
  - rewrite length_map in Hpre. exact Hpre.
  - simpl in Hpre. lia.
Qed.

Lemma omap_length_le {A B : Type} (f : A -> option B) (l : list A) :
  (length (omap f l) <= length l)%nat.
Proof.
  induction l as [|x l IH]; [reflexivity|].
  change (omap f (x :: l))
    with (match f x with Some y => y :: omap f l | None => omap f l end).
  destruct (f x); cbn [length]; lia.
Qed.

Lemma search_sound (table : list Subdivision) (code : string)
    (sd : Subdivision) :
  In sd (Subdivision_search table code) -> In sd table /\ sub_code sd = code.
Proof.
  unfold Subdivision_search. rewrite filter_In, String.eqb_eq. tauto.
Qed.

(** X14. Every candidate of a [Candidates] verdict comes from a
    suggestion of the response and a record of the subdivision table whose
    code is the address's country code, a dash and the suggestion's state;
    it keeps the address's country, and it never repeats the address: its
    city differs from the address's city beyond letter case, or its
    subdivision is not the address's.  There are at most as many
    candidates as suggestions. *)
Theorem candidates_come_from_the_table (toupper : ascii -> ascii)
    (table : list Subdivision)
    (self : Address) (response : Response) (l : list Address) :
  outcome (_ups_address_validate toupper table self response) = Ok (Candidates l) ->
  (length l <= length (suggestions response))%nat
  /\
  Forall (fun a =>
    exists address sd c,
      In address (suggestions response) /\ In sd table /\
      country self = Some c /\
      sub_code sd = country_code c +:+ "-" +:+ suggestion_state address /\
      a = candidate self address sd /\
      country a = country self /\
      (forall mine, city self = Some mine ->
         upper toupper mine = upper toupper (suggestion_city address) ->
         subdivision_eq (subdivision self) sd = false)) l.
Proof.
  intros H.
  assert (Hloop : _ups_address_validate toupper table self response
                  = iterate toupper table self (suggestions response) [] []).
  { unfold _ups_address_validate in *.
    destruct (valid response && is_nil (suggestions response));
      [discriminate H | reflexivity]. }
  rewrite Hloop in H.
  destruct (iterate_Candidates_inv _ _ _ _ _ _ _ H) as (-> & _ & Hno).
  simpl. split; [apply omap_length_le|].
  apply Forall_forall. intros a Ha.
  apply list_elem_of_omap in Ha as (address & Hin & Hcand).
  apply candidate_of_Some in Hcand as (sd & (c & Hc & Hs) & ->).
  assert (Hsd : In sd table /\
                sub_code sd = country_code c +:+ "-" +:+ suggestion_state address).
  { apply search_sound. rewrite Hs. left. reflexivity. }
  destruct Hsd as [Hsd Hcode].
  exists address, sd, c. apply list_elem_of_In in Hin.
  repeat split; try assumption.
  intros mine Hm Hu.
  destruct (subdivision_eq (subdivision self) sd) eqn:E; [|reflexivity].
  exfalso. rewrite Forall_forall in Hno.
  apply (Hno address); [now apply list_elem_of_In|].
  apply subdivision_eq_true in E as (m & Hm' & Hid).
  exists sd, mine, m. repeat split; try assumption. exists c. auto.
Qed.

Lemma candidates_come_from_the_table_witness :
  (length [candidate austin_address dallas_tx
             {| sub_id := 7; sub_code := "US-TX" |}]
   <= length [houston_zz; dallas_tx; dover_dd])%nat.
Proof.
  exact (proj1 (candidates_come_from_the_table upper_char
                  (subdivision_table env1)
                  austin_address
                  {| valid := true;
                     suggestions := [houston_zz; dallas_tx; dover_dd] |}
                  _ eq_refl)).
Defined.

(** ** The desktop elements *)

(** The desktop dictionary has no [None] exactly when the four values
    that may be [None] are there. *)
Lemma worldship_vals_buildable (first attention : option string)
    (self : Address) (telephone : string) :
  buildable
    ({[ "CompanyOrName" := to_pyval first;
        "Attention" := to_pyval attention;
        "Address1" := PyStr (or_empty (street self));
        "Address2" := PyStr (or_empty (streetbis self));
        "CountryTerritory" :=
          match country self with
          | Some c => PyStr (country_code c)
          | None => PyNone
          end;
        "PostalCode" := PyStr (or_empty (zip self));
        "CityOrTown" := PyStr (or_empty (city self));
        "StateProvinceCounty" :=
          match subdivision self with
          | Some sd => PyStr (slice_from 3 (sub_code sd))
          | None => PyNone
          end;
        "Telephone" := PyStr telephone ]} : gmap string pyval) = true <->
  first <> None /\ attention <> None /\
  country self <> None /\ subdivision self <> None.
Proof.
  rewrite buildable_true, !map_Forall_insert by reflexivity.
  rewrite map_Forall_singleton, !to_pyval_not_None.
  destruct (country self), (subdivision self);
    (split; [intros (? & ? & ? & ? & ? & ? & ? & ? & ?); repeat split;
               auto; congruence
            | intros (? & ? & ? & ?); repeat split; auto; congruence]).
Qed.

(** X15. The two desktop elements fail with the error of
    [to_worldship_address] when it fails.  When it returns its dictionary,
    the ship-from element is built from that dictionary, and the ship-to
    element from the same keys and values except [CompanyOrName], which
    holds the value of [Attention] in place of the company's name.  The
    builder raises [TypeError] on a [None]: the ship-to element is made
    exactly when the attention name, the country and the subdivision are
    there, and the ship-from element needs the company's name as well. *)
Theorem worldship_elements_need_every_value (env : Env) (self : Address) :
  (forall e, to_worldship_address env self = Raise e ->
     to_worldship_from_address env self = Raise e /\
     to_worldship_to_address env self = Raise e)
  /\
  (forall vals p company_id,
     to_worldship_address env self = Ok vals -> party self = Some p ->
     context_company env = Some company_id ->
     let attention := py_or (name self) (party_name p) in
     let vals' := <["CompanyOrName" := to_pyval attention]> vals in
     to_worldship_from_address env self
     = (if buildable vals then Ok (WorldShip.ship_from_type vals)
        else Raise TypeError)
     /\
     to_worldship_to_address env self
     = (if buildable vals' then Ok (WorldShip.ship_to_type vals')
        else Raise TypeError)
     /\
     vals' !! "CompanyOrName" = vals !! "Attention" /\
     (forall k, k <> "CompanyOrName" -> vals' !! k = vals !! k) /\
     dom vals' = dom vals /\
     (buildable vals' = true <->
      attention <> None /\ country self <> None /\ subdivision self <> None)
     /\
     (buildable vals = true <->
      party_name (company_party env company_id) <> None /\
      attention <> None /\ country self <> None /\ subdivision self <> None)).
Proof.
  split.
  - intros e H.
    unfold to_worldship_from_address, to_worldship_to_address. rewrite H.
    split; reflexivity.
  - intros vals p cid H Hp Hctx. simpl.
    unfold to_worldship_from_address, to_worldship_to_address. rewrite H.
    simpl.
    destruct (to_worldship_address_Ok _ _ _ H)
      as (cid' & p' & number & Hc & Hp' & _ & Hv).
    assert (p' = p) as -> by congruence.
    assert (cid' = cid) as ->.
    { apply company_from_context_Ok in Hc as [Hc _]. congruence. }
    unfold getattr. rewrite Hp.
    assert (Hto : forall X (k : option string -> result X),
              (attention ← (if truthy (name self) then Ok (name self)
                            else Ok (party_name p)); k attention)
              = k (py_or (name self) (party_name p))).
    { intros X k. unfold py_or. destruct (truthy (name self)); reflexivity. }
    rewrite Hto.
    split; [reflexivity|]. split; [reflexivity|].
    split; [rewrite lookup_insert_eq, Hv; reflexivity|].
    split; [intros k Hk; now apply lookup_insert_ne|].
    split; [rewrite dom_insert_L, Hv, !dom_insert_L; set_solver|].
    rewrite Hv. rewrite insert_insert_eq.
    rewrite !worldship_vals_buildable. tauto.
Qed.

Lemma worldship_elements_need_every_value_witness :
  (exists vals',
     to_worldship_to_address env1 long_address
     = Ok (WorldShip.ship_to_type vals') /\
     vals' !! "CompanyOrName" = Some (PyStr "Jo") /\
     vals' !! "Attention" = Some (PyStr "Jo"))
  /\
  to_worldship_to_address env1 bare_address = Raise TypeError.
Proof.
  split.
  - destruct (to_worldship_address env1 long_address) as [vals|] eqn:H;
      [|discriminate H].
    destruct (proj2 (worldship_elements_need_every_value env1 long_address)
                vals acme 1 H eq_refl eq_refl)
      as (_ & Hto & Hname & Hrest & _ & Hb & _).
    rewrite (proj2 Hb) in Hto by (repeat split; discriminate).
    eexists. split; [exact Hto|].
    injection H as <-.
    split; [rewrite Hname | rewrite Hrest by discriminate]; reflexivity.
  - destruct (to_worldship_address env1 bare_address) as [vals|] eqn:H;
      [|discriminate H].
    destruct (proj2 (worldship_elements_need_every_value env1 bare_address)
                vals lone_party 1 H eq_refl eq_refl)
      as (_ & Hto & _ & _ & _ & Hb & _).
    destruct (buildable _) eqn:E in Hto; [|exact Hto].
    apply Hb in E as (_ & _ & E). now destruct E.
Defined.

(** ** The validation entry point *)

(** X16. Without a validation carrier in the party configuration the
    validation fails with "Validation Carrier is not selected in party
    configuration.", whatever the address and the transport.  It returns a
    verdict only when a carrier is selected, the request could be built,
    the transport, called with the carrier's four credentials and that
    request, answered with exactly one response, and the reconciliation of
    that response returned this verdict. *)
Theorem validation_call_returns_only_reconciled_verdicts
    (toupper : ascii -> ascii) (carrier : option ValidationCarrier)
    (validate : UPSClient -> fulfil_shipping.Address -> Reply)
    (table : list Subdivision) (self : Address) :
  (carrier = None ->
   _ups_address_validate_call toupper carrier validate table self
   = Failed (Raised (UserError
       "Validation Carrier is not selected in party configuration.")))
  /\
  (forall verdict,
     _ups_address_validate_call toupper carrier validate table self = Returned verdict ->
     exists selected request response,
       carrier = Some selected /\
       fulfil_shipping_obj self = Returned request /\
       validate {| license_number := ups_license_key selected;
                   user_id := ups_user_id selected;
                   password := ups_password selected;
                   test_mode := ups_is_test selected |} request
       = Responses [response] /\
       outcome (_ups_address_validate toupper table self response) = Ok verdict).
Proof.
  split.
  - intros ->. reflexivity.
  - intros verdict. unfold _ups_address_validate_call.
    destruct carrier as [selected|]; [|discriminate].
    destruct (fulfil_shipping_obj self) as [request|]; [|discriminate].
    destruct (validate _ request) as [[|response [|r l]]|message] eqn:E;
      try discriminate.
    + destruct (outcome (_ups_address_validate toupper table self response))
        as [v|] eqn:Hv; [|discriminate].
      intros [= <-]. exists selected, request, response. auto.
    + destruct (message !! 1%nat); discriminate.
Qed.

Lemma validation_call_returns_only_reconciled_verdicts_witness :
  _ups_address_validate_call upper_char None
    (constant_transport
       (Responses [ {| valid := true; suggestions := [] |} ]))
    (subdivision_table env1) austin_address
  = Failed (Raised (UserError
      "Validation Carrier is not selected in party configuration.")).
Proof.
  exact (proj1 (validation_call_returns_only_reconciled_verdicts upper_char
                  None
                  (constant_transport
                     (Responses [ {| valid := true; suggestions := [] |} ]))
                  (subdivision_table env1) austin_address) eq_refl).
Defined.

(** X17. With a carrier selected, an address whose subdivision code has
    no dash fails with [IndexError] before the transport is used.  When
    the request can be built, an answer of the transport with no response
    or with several fails with [ValueError], and an answer with one
    response gives what the reconciliation of that response gives, its
    errors included. *)
Theorem validation_call_failures (toupper : ascii -> ascii)
    (selected : ValidationCarrier)
    (validate : UPSClient -> fulfil_shipping.Address -> Reply)
    (table : list Subdivision) (self : Address) :
  let call := _ups_address_validate_call toupper (Some selected) validate table self in
  let client := {| license_number := ups_license_key selected;
                   user_id := ups_user_id selected;
                   password := ups_password selected;
                   test_mode := ups_is_test selected |} in
  (forall sd, subdivision self = Some sd ->
     contains dash (sub_code sd) = false -> call = Failed IndexError)
  /\
  (forall request, fulfil_shipping_obj self = Returned request ->
     (forall l, validate client request = Responses l ->
        length l <> 1%nat -> call = Failed ValueError)
     /\
     (forall response, validate client request = Responses [response] ->
        call = match outcome (_ups_address_validate toupper table self response) with
               | Ok verdict => Returned verdict
               | Raise e => Failed (Raised e)
               end)).
Proof.
  simpl. split.
  - intros sd Hsd Hc.
    assert (H : fulfil_shipping_obj self = Failed IndexError).
    { unfold fulfil_shipping_obj. rewrite Hsd.
      apply split_second in Hc. rewrite Hc. reflexivity. }
    unfold _ups_address_validate_call. rewrite H. reflexivity.
  - intros request Hreq. unfold _ups_address_validate_call. rewrite Hreq.
    split.
    + intros l -> Hlen. destruct l as [|r [|r' l]]; simpl in Hlen;
        congruence.
    + intros response ->. reflexivity.
Qed.

Lemma validation_call_failures_witness :
  _ups_address_validate_call upper_char (Some test_carrier)
    (constant_transport (Responses []))
    (subdivision_table env1) austin_address
  = Failed ValueError
  /\
  _ups_address_validate_call upper_char (Some test_carrier)
    (constant_transport
       (Responses [ {| valid := false; suggestions := [dallas_tx] |} ]))
    (subdivision_table env1) nowhere_address
  = Failed (Raised AttributeError).
Proof.
  split.
  - destruct (fulfil_shipping_obj austin_address) as [request|] eqn:Hreq;
      [|discriminate Hreq].
    destruct (proj2 (validation_call_failures upper_char test_carrier
                       (constant_transport (Responses []))
                       (subdivision_table env1) austin_address)
                request Hreq) as (Hcount & _).
    apply (Hcount [] eq_refl). discriminate.
  - destruct (fulfil_shipping_obj nowhere_address) as [request|] eqn:Hreq;
      [|discriminate Hreq].
    destruct (proj2 (validation_call_failures upper_char test_carrier
                       (constant_transport
                          (Responses
                             [ {| valid := false;
                                  suggestions := [dallas_tx] |} ]))
                       (subdivision_table env1) nowhere_address)
                request Hreq) as (_ & Hone).
    exact (Hone _ eq_refl).
Defined.

(** X18. With a carrier selected and a request built, a
    [ShippingException] of the transport is never let through: it becomes
    the user error "Error while validating address: " followed by the
    second item of the exception's message, or [IndexError] when the
    message has fewer than two items. *)
Theorem validation_call_wraps_carrier_error (toupper : ascii -> ascii)
    (selected : ValidationCarrier)
    (validate : UPSClient -> fulfil_shipping.Address -> Reply)
    (table : list Subdivision) (self : Address)
    (request : fulfil_shipping.Address) (message : list string) :
  fulfil_shipping_obj self = Returned request ->
  validate {| license_number := ups_license_key selected;
              user_id := ups_user_id selected;
              password := ups_password selected;
              test_mode := ups_is_test selected |} request
  = ShippingException message ->
  (forall text, message !! 1%nat = Some text ->
     _ups_address_validate_call toupper (Some selected) validate table self
     = Failed (Raised (UserError
         ("Error while validating address: " +:+ text))))
  /\
  ((length message < 2)%nat ->
   _ups_address_validate_call toupper (Some selected) validate table self
   = Failed IndexError).
Proof.
  intros Hreq Hexc. unfold _ups_address_validate_call.
  rewrite Hreq, Hexc. split.
  - intros text ->. reflexivity.
  - intros Hlen. rewrite (lookup_ge_None_2 message 1) by lia. reflexivity.
Qed.

Lemma validation_call_wraps_carrier_error_witness :
  _ups_address_validate_call upper_char (Some test_carrier)
    (constant_transport (ShippingException ["120802"; "Address Validation Error"]))
    (subdivision_table env1) austin_address
  = Failed (Raised (UserError
      "Error while validating address: Address Validation Error")).
Proof.
  destruct (fulfil_shipping_obj austin_address) as [request|] eqn:Hreq;
    [|discriminate Hreq].
  exact (proj1 (validation_call_wraps_carrier_error upper_char
                  test_carrier
                  (constant_transport
                     (ShippingException
                        ["120802"; "Address Validation Error"]))
                  (subdivision_table env1) austin_address request
                  ["120802"; "Address Validation Error"] Hreq eq_refl)
           _ eq_refl).
Defined.

(** ** Names across the payloads *)

(** X19. The four mappers agree on the attention name: it is the
    address's name, or the party's name when the address's name is empty.
    The ship-to payload puts it under [CompanyName] too; the ship-from
    and shipper payloads put the name of the company's party there, and
    the shipper payload repeats the attention name under [Name].  The
    three role payloads carry the address element that
    [_get_ups_address_xml] returns. *)
Theorem payloads_agree_on_names (env : Env) (self : Address)
    (carrier : Carrier) (p : Party) :
  party self = Some p ->
  let attention := Some (to_pyval (py_or (name self) (party_name p))) in
  (forall payload, to_ups_from_address env self = Ok payload ->
     payload_vals payload !! "AttentionName" = attention /\
     (exists company_id,
        context_company env = Some company_id /\
        payload_vals payload !! "CompanyName"
        = Some (to_pyval (party_name (company_party env company_id)))) /\
     _get_ups_address_xml self = Ok (payload_address payload))
  /\
  (forall payload, to_ups_shipper env self carrier = Ok payload ->
     payload_vals payload !! "AttentionName" = attention /\
     payload_vals payload !! "Name" = attention /\
     (exists company_id,
        context_company env = Some company_id /\
        payload_vals payload !! "CompanyName"
        = Some (to_pyval (party_name (company_party env company_id)))) /\
     _get_ups_address_xml self = Ok (payload_address payload))
  /\
  (forall payload, to_ups_to_address self = Ok payload ->
     payload_vals payload !! "AttentionName" = attention /\
     payload_vals payload !! "CompanyName" = attention /\
     _get_ups_address_xml self = Ok (payload_address payload))
  /\
  (forall vals, to_worldship_address env self = Ok vals ->
     vals !! "Attention" = attention).
Proof.
  intros Hp. simpl. split; [|split; [|split]].
  - intros payload H. apply to_ups_from_address_Ok in H
      as (p' & number & cid & address & Hp' & _ & _ & Hc & Ha & ->).
    assert (p' = p) as -> by congruence.
    simpl. unfold from_vals. rewrite !lookup_insert_if_truthy. simpl.
    split; [reflexivity|]. split; [|exact Ha].
    exists cid. split; [now apply company_from_context_Ok | reflexivity].
  - intros payload H. apply to_ups_shipper_Ok in H
      as (p' & number & cid & address & Hp' & _ & _ & Hc & Ha & ->).
    assert (p' = p) as -> by congruence.
    simpl. unfold shipper_vals. rewrite !lookup_insert_if_truthy. simpl.
    split; [reflexivity|]. split; [reflexivity|]. split; [|exact Ha].
    exists cid. split; [now apply company_from_context_Ok | reflexivity].
  - intros payload H. apply to_ups_to_address_Ok in H
      as (p' & address & Hp' & Ha & ->).
    assert (p' = p) as -> by congruence.
    simpl. unfold to_vals. rewrite !lookup_insert_if_truthy. simpl.
    destruct (truthy (phone p)); repeat split; try reflexivity; exact Ha.
  - intros vals H. apply to_worldship_address_Ok in H
      as (cid & p' & number & _ & Hp' & _ & ->).
    assert (p' = p) as -> by congruence. reflexivity.
Qed.

Lemma payloads_agree_on_names_witness :
  exists payload,
    to_ups_to_address chatty_address = Ok payload /\
    payload_vals payload !! "AttentionName" = Some (PyStr "Marie") /\
    payload_vals payload !! "CompanyName" = Some (PyStr "Marie").
Proof.
  destruct (to_ups_to_address chatty_address) as [payload|] eqn:H;
    [|discriminate H].
  destruct (payloads_agree_on_names env1 chatty_address
              {| ups_shipper_no := None |} chatty_party eq_refl)
    as (_ & _ & Hto & _).
  destruct (Hto payload H) as (Ha & Hc & _).
  exists payload. split; [reflexivity|]. split; assumption.
Defined.

(** With a case table that folds the accented letters, two spellings of a
    city that differ in the case of such a letter are the same city. *)
Example munich_is_exact :
  outcome (_ups_address_validate latin1_upper_char
             [ {| sub_id := 20; sub_code := "DE-BY" |} ] munich_address
             {| valid := false;
                suggestions := [ {| suggestion_city := MUENCHEN;
                                    suggestion_state := "BY" |} ] |})
  = Ok Exact.
Proof. vm_compute. reflexivity. Qed.
